(** * oop_lecture.py: the lecture's classes as a shallow embedding

    The lecture file defines small classes (BankAccount, Shape/Circle,
    Vehicle/Car/ElectricScooter) and one reporting function.  Objects are
    records, a method that mutates [self] returns the new object next to
    its outcome, and a raised exception is an explicit [Raise].

    Typing of the dynamically typed source.  The lecture calls [deposit],
    [drive] and every constructor with [int] literals, so amounts,
    distances, years, mileages and capacities are Python ints, that is [Z]
    (unbounded).  The battery level is the one quantity that leaves the
    integers: [distance * 0.1] is a binary64 product, so the level is a
    [pynum], an int or a float, computed with the kernel's IEEE 754
    operations.  A Python [str] is a Rocq [string], the bytes of its UTF-8
    encoding.  The two built-ins that look inside characters, [str.upper]
    and [int], are parameters where a statement is about every string; on
    ASCII strings they are [PyStr.ascii_upper] and [PyStr.py_int].  [repr]
    of a float, which only the scooter's report line needs, is a parameter
    of the rendering functions. *)

From Stdlib Require Import ZArith Lia Bool List String Ascii.
From Stdlib Require Import DecimalString.
From Stdlib Require Import Floats.
Import ListNotations.

Local Open Scope string_scope.
Local Open Scope Z_scope.

(** ** Exceptions and outcomes *)

Inductive exn : Type :=
| ValueError
| TypeError
| NameError
| OverflowError
| AttributeError.

Inductive result (A : Type) : Type :=
| Ok (a : A)
| Raise (e : exn).

Arguments Ok {A} a.
Arguments Raise {A} e.

Definition bind {A B : Type} (r : result A) (k : A -> result B) : result B :=
  match r with
  | Ok a => k a
  | Raise e => Raise e
  end.

Notation "x <- r ;; k" := (bind r (fun x => k))
  (at level 61, r at next level, right associativity).

Definition is_ok {A : Type} (r : result A) : bool :=
  match r with Ok _ => true | Raise _ => false end.

(** ** Python numbers: [int] and [float] *)

Module PyNum.

Inductive pynum : Type :=
| PyInt (z : Z)
| PyFloat (f : float).

(** The literal [0.1] of [ElectricScooter.drive]: the double nearest to one
    tenth. *)
Definition tenth : float := 0x1.999999999999ap-4%float.

(** [float(z)] as CPython's [PyLong_AsDouble] computes it: [z] rounded to the
    nearest double, ties to even, and [OverflowError] when that is no finite
    double. *)
Definition float_of_int (z : Z) : result float :=
  let f := SF2Prim (binary_normalize prec emax z 0 false) in
  if is_finite f then Ok f else Raise OverflowError.

(** The operand of a float operation: a float as it is, an int converted. *)
Definition as_float (a : pynum) : result float :=
  match a with
  | PyFloat f => Ok f
  | PyInt z => float_of_int z
  end.

(** [a * b] and [a - b]: exact on two ints, binary64 as soon as one operand
    is a float. *)
Definition py_mul (a b : pynum) : result pynum :=
  match a, b with
  | PyInt x, PyInt y => Ok (PyInt (x * y))
  | _, _ => x <- as_float a ;; y <- as_float b ;; Ok (PyFloat (x * y)%float)
  end.

Definition py_sub (a b : pynum) : result pynum :=
  match a, b with
  | PyInt x, PyInt y => Ok (PyInt (x - y))
  | _, _ => x <- as_float a ;; y <- as_float b ;; Ok (PyFloat (x - y)%float)
  end.

(** Comparison of a float with an int is exact in Python: the int is not
    rounded first.  [None] is the unordered case (NaN). *)
Definition float_cmp_int (f : float) (z : Z) : option comparison :=
  match Prim2SF f with
  | S754_nan => None
  | S754_infinity s => Some (if s then Lt else Gt)
  | S754_zero _ => Some (0 ?= z)
  | S754_finite s m e =>
      let n := if s then Z.neg m else Z.pos m in
      Some (if 0 <=? e then (n * 2 ^ e ?= z) else (n ?= z * 2 ^ (- e)))
  end.

Definition py_compare (a b : pynum) : option comparison :=
  match a, b with
  | PyInt x, PyInt y => Some (x ?= y)
  | PyFloat x, PyInt y => float_cmp_int x y
  | PyInt x, PyFloat y => option_map CompOpp (float_cmp_int y x)
  | PyFloat x, PyFloat y =>
      match (x ?= y)%float with
      | FEq => Some Eq
      | FLt => Some Lt
      | FGt => Some Gt
      | FNotComparable => None
      end
  end.

(** [a < b], [a > b], [a == b] *)
Definition py_lt (a b : pynum) : bool :=
  match py_compare a b with Some Lt => true | _ => false end.

Definition py_gt (a b : pynum) : bool :=
  match py_compare a b with Some Gt => true | _ => false end.

Definition py_eq (a b : pynum) : bool :=
  match py_compare a b with Some Eq => true | _ => false end.

(** The built-in [max(a, b)]: [b] replaces [a] only when [b > a]. *)
Definition py_max (a b : pynum) : pynum :=
  if py_gt b a then b else a.

Definition is_nan_num (a : pynum) : bool :=
  match a with
  | PyInt _ => false
  | PyFloat f => is_nan f
  end.

(** The two classes of binary64 values the proofs tell apart, read on the
    specification side of a float. *)
Definition SF_is_nan (x : spec_float) : bool :=
  match x with S754_nan => true | _ => false end.

Definition SF_is_finite (x : spec_float) : bool :=
  match x with S754_zero _ | S754_finite _ _ _ => true | _ => false end.

End PyNum.
Export PyNum.

(** ** Python strings *)

Module PyStr.

Local Open Scope char_scope.

Definition is_lower (c : ascii) : bool :=
  ((97 <=? nat_of_ascii c) && (nat_of_ascii c <=? 122))%nat.

Definition is_digit (c : ascii) : bool :=
  ((48 <=? nat_of_ascii c) && (nat_of_ascii c <=? 57))%nat.

(** Whitespace that [int] strips from an ASCII string: tab, newline,
    vertical tab, form feed, carriage return and the space. *)
Definition is_space (c : ascii) : bool :=
  let n := nat_of_ascii c in
  ((9 <=? n) && (n <=? 13) || (n =? 32))%nat.

(** A string of ASCII characters only. *)
Definition is_ascii_char (c : ascii) : bool := (nat_of_ascii c <? 128)%nat.

Fixpoint is_ascii (s : string) : bool :=
  match s with
  | EmptyString => true
  | String c s' => is_ascii_char c && is_ascii s'
  end.

Definition upper_char (c : ascii) : ascii :=
  if is_lower c then ascii_of_nat (nat_of_ascii c - 32) else c.

(** What [s.upper()] is on an ASCII string: the letters a to z raised, the
    rest kept.  On other strings [str.upper] is not this function. *)
Fixpoint ascii_upper (s : string) : string :=
  match s with
  | EmptyString => EmptyString
  | String c s' => String (upper_char c) (ascii_upper s')
  end.

(** [s.split(sep)] for a one-character separator: every occurrence cuts, empty
    fields are kept, and the result is never empty. *)
Fixpoint split (sep : ascii) (s : string) : list string :=
  match s with
  | EmptyString => [EmptyString]
  | String c s' =>
      if Ascii.eqb c sep then EmptyString :: split sep s'
      else match split sep s' with
           | f :: fs => String c f :: fs
           | [] => [String c EmptyString]
           end
  end.

(** [sep.join(fields)] *)
Fixpoint join (sep : ascii) (fields : list string) : string :=
  match fields with
  | [] => EmptyString
  | [f] => f
  | f :: fs => (f ++ String sep (join sep fs))%string
  end.

Fixpoint lstrip (s : string) : string :=
  match s with
  | String c s' => if is_space c then lstrip s' else s
  | EmptyString => EmptyString
  end.

(** Digits after the first one: a digit, or one underscore followed by a
    digit.  [acc] is the value read so far. *)
Fixpoint int_digits (s : string) (acc : Z) : option Z :=
  match s with
  | EmptyString => Some acc
  | String c s' =>
      if is_digit c then int_digits s' (10 * acc + Z.of_nat (nat_of_ascii c - 48))
      else if Ascii.eqb c "_" then
        match s' with
        | String d s'' =>
            if is_digit d
            then int_digits s'' (10 * acc + Z.of_nat (nat_of_ascii d - 48))
            else None
        | EmptyString => None
        end
      else if is_space c then
        match lstrip s' with EmptyString => Some acc | _ => None end
      else None
  end.

Definition int_unsigned (s : string) : option Z :=
  match s with
  | String c s' =>
      if is_digit c then int_digits s' (Z.of_nat (nat_of_ascii c - 48)) else None
  | EmptyString => None
  end.

(** A base-ten literal: surrounding whitespace, an optional sign, then
    digits with single underscores between them. *)
Definition int_literal (s : string) : option Z :=
  match lstrip s with
  | String "+" s' => int_unsigned s'
  | String "-" s' => option_map Z.opp (int_unsigned s')
  | s' => int_unsigned s'
  end.

Fixpoint count_digits (s : string) : Z :=
  match s with
  | EmptyString => 0%Z
  | String c s' => ((if is_digit c then 1 else 0) + count_digits s')%Z
  end.

(** The interpreter's default limit on the digits of an int read from or
    written to a string. *)
Definition max_str_digits : Z := 4300%Z.

(** What [int(s)] is on an ASCII string: the value of the literal, and
    [None], that is [ValueError], for what is no literal or has more digits
    than the limit.  On other strings [int] is not this function: it also
    reads the decimal digits and the spaces of other scripts. *)
Definition py_int (s : string) : option Z :=
  if (max_str_digits <? count_digits s)%Z then None else int_literal s.

(** No separator in a field. *)
Fixpoint dash_free (s : string) : bool :=
  match s with
  | EmptyString => true
  | String c s' => negb (Ascii.eqb c "-") && dash_free s'
  end.

(** [s] is the three fields [a], [b], [c] joined by dashes. *)
Definition three_fields (s a b c : string) : Prop :=
  dash_free a = true /\ dash_free b = true /\ dash_free c = true /\
  s = join "-" [a; b; c].

(** [str(z)] for an int whose decimal form is within the interpreter's
    digit limit; past it [str] raises ValueError, which is left out. *)
Definition str_of_int (z : Z) : string :=
  NilZero.string_of_int (Z.to_int z).

End PyStr.

(** ** Methods

    A method runs on [self] and leaves the object it mutated next to its
    outcome: an exception does not undo the assignments made before it. *)

Definition meth (S A : Type) : Type := S -> S * result A.

Definition ret {S A : Type} (a : A) : meth S A := fun self => (self, Ok a).

Definition lift {S A : Type} (r : result A) : meth S A := fun self => (self, r).

Definition seq {S A B : Type} (m : meth S A) (k : A -> meth S B) : meth S B :=
  fun self =>
    match m self with
    | (self', Ok a) => k a self'
    | (self', Raise e) => (self', Raise e)
    end.

Notation "x <~ m ;; k" := (seq m (fun x => k))
  (at level 61, m at next level, right associativity).
Notation "m ;> k" := (seq m (fun _ => k))
  (at level 61, right associativity).

(** ** 4. Encapsulation: [BankAccount] *)

Module Bank.

Record BankAccount : Type := {
  owner : string;
  __balance : Z
}.

(** [BankAccount(owner, balance=0)] *)
Definition new (owner : string) (balance : option Z) : BankAccount :=
  {| owner := owner;
     __balance := match balance with Some b => b | None => 0 end |}.

Definition deposit (amount : Z) : meth BankAccount unit :=
  fun self =>
    if amount >? 0
    then ({| owner := owner self; __balance := __balance self + amount |}, Ok tt)
    else (self, Ok tt).

Definition get_balance : meth BankAccount Z :=
  fun self => (self, Ok (__balance self)).

End Bank.

(** ** 7. Class methods: [Shape] and [Circle(Shape)]

    The name [Circle] is bound twice in the file; from line 114 on it is the
    subclass of [Shape], the one meant here. *)

Module Shapes.

Inductive shape_class : Type := Shape | Circle.

(** An instance: its class and its one attribute. *)
Record shape : Type := {
  type_of : shape_class;
  name : string
}.

Definition base_of (c : shape_class) : option shape_class :=
  match c with
  | Shape => None
  | Circle => Some Shape
  end.

Definition class_eqb (c d : shape_class) : bool :=
  match c, d with
  | Shape, Shape | Circle, Circle => true
  | _, _ => false
  end.

Definition issubclass (c d : shape_class) : bool :=
  class_eqb c d || match base_of c with Some b => class_eqb b d | None => false end.

Definition isinstance (o : shape) (c : shape_class) : bool :=
  issubclass (type_of o) c.

(** [Shape.__init__]: binds [name] on the object under construction. *)
Definition Shape_init (self : shape) (name : string) : shape :=
  {| type_of := type_of self; name := name |}.

(** [Circle.__init__]: [super().__init__(name)]. *)
Definition Circle_init (self : shape) (name : string) : shape :=
  Shape_init self name.

(** [cls(name)]: a new object of class [cls], initialised by the [__init__]
    that [cls] resolves to. *)
Definition call_class (cls : shape_class) (name : string) : shape :=
  let self := {| type_of := cls; name := EmptyString |} in
  match cls with
  | Shape => Shape_init self name
  | Circle => Circle_init self name
  end.

(** The class method, defined once in [Shape] and inherited by [Circle];
    [cls] is the class it is called through and [upper] the built-in
    [str.upper]. *)
Definition from_description (upper : string -> string)
  (cls : shape_class) (desc : string) : shape :=
  call_class cls (upper desc).

(** [upper] is [str.upper] as far as ASCII strings go. *)
Definition upper_on_ascii (upper : string -> string) : Prop :=
  forall s, PyStr.is_ascii s = true -> upper s = PyStr.ascii_upper s.

Definition Shape_describe (self : shape) : string :=
  "This is a shape named " ++ name self.

Definition Circle_describe (self : shape) : string :=
  "A circle named " ++ name self.

Definition describe (self : shape) : string :=
  match type_of self with
  | Shape => Shape_describe self
  | Circle => Circle_describe self
  end.

End Shapes.

(** ** 10. The vehicle classes *)

Module Vehicles.

Inductive vehicle_class : Type := VehicleC | CarC | ElectricScooterC.

(** The attributes [Vehicle.__init__] binds. *)
Record attrs : Type := {
  make : string;
  model : string;
  year : Z;
  _mileage : Z
}.

(** An instance of one of the three classes, with the attribute its own
    [__init__] adds. *)
Inductive vehicle : Type :=
| Vehicle (a : attrs)
| Car (a : attrs) (fuel_capacity : Z)
| ElectricScooter (a : attrs) (battery_percentage : pynum).

Definition class_of (v : vehicle) : vehicle_class :=
  match v with
  | Vehicle _ => VehicleC
  | Car _ _ => CarC
  | ElectricScooter _ _ => ElectricScooterC
  end.

Definition base (v : vehicle) : attrs :=
  match v with
  | Vehicle a | Car a _ | ElectricScooter a _ => a
  end.

Definition mileage (v : vehicle) : Z := _mileage (base v).

Definition set_mileage (m : Z) (v : vehicle) : vehicle :=
  let a := base v in
  let a' := {| make := make a; model := model a; year := year a; _mileage := m |} in
  match v with
  | Vehicle _ => Vehicle a'
  | Car _ f => Car a' f
  | ElectricScooter _ b => ElectricScooter a' b
  end.

(** Reading and writing [self.battery_percentage]; only an ElectricScooter
    has the attribute. *)
Definition get_battery : meth vehicle pynum :=
  fun self =>
    match self with
    | ElectricScooter _ b => (self, Ok b)
    | _ => (self, Raise AttributeError)
    end.

Definition set_battery (b : pynum) : meth vehicle unit :=
  fun self =>
    match self with
    | ElectricScooter a _ => (ElectricScooter a b, Ok tt)
    | _ => (self, Raise AttributeError)
    end.

(** *** Constructors *)

Definition Vehicle_init (make model : string) (year : Z) : attrs :=
  {| make := make; model := model; year := year; _mileage := 0 |}.

Definition new_Vehicle (make model : string) (year : Z) : vehicle :=
  Vehicle (Vehicle_init make model year).

Definition new_Car (make model : string) (year fuel_capacity : Z) : vehicle :=
  Car (Vehicle_init make model year) fuel_capacity.

Definition new_ElectricScooter (make model : string) (year battery_percentage : Z)
  : vehicle :=
  ElectricScooter (Vehicle_init make model year) (PyInt battery_percentage).

(** *** [drive] *)

Definition Vehicle_drive (distance : Z) : meth vehicle unit :=
  fun self =>
    if distance >? 0
    then (set_mileage (mileage self + distance) self, Ok tt)
    else (self, Ok tt).

Definition ElectricScooter_drive (distance : Z) : meth vehicle unit :=
  Vehicle_drive distance ;>
  b <~ get_battery ;;
  used <~ lift (py_mul (PyInt distance) (PyFloat tenth)) ;;
  b' <~ lift (py_sub b used) ;;
  set_battery b' ;>
  b'' <~ get_battery ;;
  if py_lt b'' (PyInt 0) then set_battery (PyInt 0) else ret tt.

(** [self.drive(distance)]: Car inherits [Vehicle.drive], ElectricScooter
    overrides it. *)
Definition drive (distance : Z) : meth vehicle unit :=
  fun self =>
    match class_of self with
    | VehicleC | CarC => Vehicle_drive distance self
    | ElectricScooterC => ElectricScooter_drive distance self
    end.

(** *** [from_string] *)

(** [cls(make, model, year)]: only [Vehicle.__init__] takes three arguments;
    the two subclasses require a fourth. *)
Definition call_class3 (cls : vehicle_class) (make model : string) (year : Z)
  : result vehicle :=
  match cls with
  | VehicleC => Ok (new_Vehicle make model year)
  | CarC | ElectricScooterC => Raise TypeError
  end.

Definition from_string (cls : vehicle_class) (s : string) : result vehicle :=
  match PyStr.split "-" s with
  | [make; model; year] =>
      match PyStr.py_int year with
      | Some y => call_class3 cls make model y
      | None => Raise ValueError
      end
  | _ => Raise ValueError
  end.

(** [from_string] again, with the built-in [int] as the parameter [int_]
    ([None] for its ValueError), for statements about every string;
    [from_string] above is its instance at what [int] is on ASCII strings. *)
Definition from_string_with (int_ : string -> option Z)
  (cls : vehicle_class) (s : string) : result vehicle :=
  match PyStr.split "-" s with
  | [make; model; year] =>
      match int_ year with
      | Some y => call_class3 cls make model y
      | None => Raise ValueError
      end
  | _ => Raise ValueError
  end.

(** [int_] is [int] as far as ASCII strings go. *)
Definition int_on_ascii (int_ : string -> option Z) : Prop :=
  forall s, PyStr.is_ascii s = true -> int_ s = PyStr.py_int s.

(** *** [is_charging_required] *)

(** What a global name can be bound to: one of the vehicles, or some other
    object (a class, a list, a function). *)
Inductive pyvalue : Type :=
| V_vehicle (v : vehicle)
| V_other.

Definition namespace : Type := list (string * pyvalue).

(** Name lookup outside any local scope: [NameError] when unbound. *)
Fixpoint lookup (ns : namespace) (name : string) : result pyvalue :=
  match ns with
  | [] => Raise NameError
  | (n, x) :: ns' => if String.eqb n name then Ok x else lookup ns' name
  end.

Definition getattr_battery_percentage (x : pyvalue) : result pynum :=
  match x with
  | V_vehicle (ElectricScooter _ b) => Ok b
  | _ => Raise AttributeError
  end.

(** The static method takes no parameter, so the [self] of its body is
    looked up among the globals of the module. *)
Definition is_charging_required (globals : namespace) : result bool :=
  self <- lookup globals "self" ;;
  b <- getattr_battery_percentage self ;;
  Ok (py_lt b (PyInt 20)).

(** The names the module's top-level statements bind: the classes, the
    function and the demonstration variables; [v] is the last vehicle of the
    final loop.  None of them is [self]. *)
Definition module_globals : namespace :=
  [("Dog", V_other); ("dog1", V_other); ("BankAccount", V_other);
   ("acct", V_other); ("Animal", V_other); ("Cat", V_other); ("cat", V_other);
   ("animals", V_other); ("animal", V_other); ("Circle", V_other);
   ("c", V_other); ("Shape", V_other); ("shape", V_other);
   ("circle", V_other); ("Book", V_other); ("book", V_other);
   ("Vehicle", V_other); ("Car", V_other); ("ElectricScooter", V_other);
   ("print_vehicle_report", V_other); ("vehicles", V_other);
   ("v", V_vehicle (Vehicle {| make := "Honda"; model := "Civic";
                               year := 2018; _mileage := 100 |}))].

(** [scooter.is_charging_required()]: a static method is called without the
    instance it was reached through. *)
Definition call_is_charging_required (scooter : vehicle) : result bool :=
  is_charging_required module_globals.

(** *** Rendering *)

Section Rendering.

(** [repr] of a float, the shortest decimal string that reads back as the
    same double; a built-in of the interpreter. *)
Variable float_repr : float -> string.

Definition str_of_num (n : pynum) : string :=
  match n with
  | PyInt z => PyStr.str_of_int z
  | PyFloat f => float_repr f
  end.

Definition Vehicle_get_info (self : vehicle) : string :=
  let a := base self in
  PyStr.str_of_int (year a) ++ " " ++ make a ++ " " ++ model a
    ++ ", Mileage: " ++ PyStr.str_of_int (_mileage a).

Definition Car_get_info (self : vehicle) : result string :=
  match self with
  | Car _ fuel_capacity =>
      Ok (Vehicle_get_info self ++ ", Fuel Capacity: " ++ PyStr.str_of_int fuel_capacity)
  | _ => Raise AttributeError
  end.

Definition ElectricScooter_get_info (self : vehicle) : result string :=
  match self with
  | ElectricScooter _ battery_percentage =>
      Ok (Vehicle_get_info self ++ ", Battery: " ++ str_of_num battery_percentage ++ "%")
  | _ => Raise AttributeError
  end.

(** [self.get_info()], resolved on the class of [self]. *)
Definition get_info (self : vehicle) : result string :=
  match class_of self with
  | VehicleC => Ok (Vehicle_get_info self)
  | CarC => Car_get_info self
  | ElectricScooterC => ElectricScooter_get_info self
  end.

(** [Vehicle.__str__], the only definition of [__str__] in the hierarchy. *)
Definition Vehicle_str (self : vehicle) : result string := get_info self.

(** [str(v)]: all three classes resolve [__str__] to [Vehicle.__str__]. *)
Definition str (v : vehicle) : result string :=
  match class_of v with
  | VehicleC | CarC | ElectricScooterC => Vehicle_str v
  end.

(** *** [print_vehicle_report] *)

(** An element of the list: a vehicle, or any other object, of which only
    the outcome of calling its [get_info] matters. *)
Inductive element : Type :=
| E_vehicle (v : vehicle)
| E_object (get_info_outcome : result string).

Definition call_get_info (x : element) : result string :=
  match x with
  | E_vehicle v => get_info v
  | E_object r => r
  end.

(** Standard output: the lines printed so far, oldest first. *)
Definition stdout : Type := list string.

Definition print (line : string) : meth stdout unit :=
  fun out => ((out ++ [line])%list, Ok tt).

Fixpoint print_vehicle_report (vehicles : list element) : meth stdout unit :=
  match vehicles with
  | [] => ret tt
  | vehicle :: rest =>
      info <~ lift (call_get_info vehicle) ;;
      print info ;>
      print_vehicle_report rest
  end.

End Rendering.

(** *** Histories of an object *)

(** The calls a client can make on a vehicle.  Only [drive] assigns to an
    attribute; the other three leave the object as it is. *)
Inductive call : Type :=
| Call_drive (distance : Z)
| Call_get_info
| Call_str
| Call_is_charging_required.

(** The object after a call, whether the call returned or raised. *)
Definition after (c : call) (v : vehicle) : vehicle :=
  match c with
  | Call_drive distance => fst (drive distance v)
  | Call_get_info | Call_str | Call_is_charging_required => v
  end.

Definition after_all (cs : list call) (v : vehicle) : vehicle :=
  fold_left (fun v c => after c v) cs v.

(** The ways the module makes a vehicle. *)
Inductive construction : Type :=
| By_Vehicle (make model : string) (year : Z)
| By_Car (make model : string) (year fuel_capacity : Z)
| By_ElectricScooter (make model : string) (year battery_percentage : Z)
| By_from_string (cls : vehicle_class) (s : string).

Definition construct (c : construction) : result vehicle :=
  match c with
  | By_Vehicle make model year => Ok (new_Vehicle make model year)
  | By_Car make model year fuel => Ok (new_Car make model year fuel)
  | By_ElectricScooter make model year b => Ok (new_ElectricScooter make model year b)
  | By_from_string cls s => from_string cls s
  end.

(** The specification's value of the battery after [drive(distance)]:
    [max(0, previous_battery - distance*0.1)], evaluated as Python evaluates
    that expression. *)
Definition spec_battery (previous_battery : pynum) (distance : Z) : result pynum :=
  used <- py_mul (PyInt distance) (PyFloat tenth) ;;
  x <- py_sub previous_battery used ;;
  Ok (py_max (PyInt 0) x).

(** The attributes after [Vehicle.drive]: the mileage moved, the rest as it
    was. *)
Definition driven (distance : Z) (a : attrs) : attrs :=
  if distance >? 0
  then {| make := make a; model := model a; year := year a;
          _mileage := _mileage a + distance |}
  else a.

(** The battery claim at one scooter and one distance: the level after
    [drive(distance)] equals the specification's value and is not negative. *)
Definition battery_clamped (s : vehicle) (distance : Z) : Prop :=
  exists a b a' b' expected,
    s = ElectricScooter a b /\
    spec_battery b distance = Ok expected /\
    fst (drive distance s) = ElectricScooter a' b' /\
    py_eq b' expected = true /\
    py_lt b' (PyInt 0) = false.

(** A scooter whose battery level is a number. *)
Definition scooter_ok (v : vehicle) : Prop :=
  exists a b, v = ElectricScooter a b /\ is_nan_num b = false.

End Vehicles.

(** ** 3 and 5. [Dog], [Animal] and [Cat]; 6. the polymorphism loop *)

Module Animals.

(** An instance of one of the three classes.  [Dog] stands alone; [Cat]
    derives from [Animal]. *)
Inductive animal : Type :=
| Dog (name breed : string)
| Animal (name : string)
| Cat (name : string).

Definition name_of (a : animal) : string :=
  match a with
  | Dog name _ | Animal name | Cat name => name
  end.

(** [self.bark()]: only [Dog] defines it. *)
Definition bark (self : animal) : result string :=
  match self with
  | Dog name _ => Ok (name ++ " says Woof!")
  | Animal _ | Cat _ => Raise AttributeError
  end.

Definition Animal_speak (self : animal) : string :=
  name_of self ++ " makes a sound".

Definition Cat_speak (self : animal) : string :=
  name_of self ++ " says Meow!".

(** [self.speak()]: [Animal] defines it, [Cat] overrides it, [Dog] has no
    such attribute. *)
Definition speak (self : animal) : result string :=
  match self with
  | Dog _ _ => Raise AttributeError
  | Animal _ => Ok (Animal_speak self)
  | Cat _ => Ok (Cat_speak self)
  end.

(** The loop of section 6: [for animal in animals: print(animal.speak())]. *)
Fixpoint speak_each (animals : list animal) : meth Vehicles.stdout unit :=
  match animals with
  | [] => ret tt
  | animal :: rest =>
      line <~ lift (speak animal) ;;
      Vehicles.print line ;>
      speak_each rest
  end.

Definition is_dog (a : animal) : bool :=
  match a with Dog _ _ => true | _ => false end.

End Animals.

(** ** 7. The first [Circle]: [area], [from_diameter], [unit_circle]

    The class of lines 78 to 93, as the file stands up to line 113, while the
    global name [Circle] that [area] and [unit_circle] read is still bound to
    it. *)

Module Circles.

(** The class attribute [pi = 3.1416], as the double that literal denotes. *)
Definition pi : float := 0x1.921ff2e48e8a7p+1%float.

Record circle : Type := { radius : pynum }.

Definition Circle_init (radius : pynum) : circle := {| radius := radius |}.

(** [Circle.pi * self.radius * self.radius], multiplied left to right. *)
Definition area (self : circle) : result pynum :=
  x <- py_mul (PyFloat pi) (radius self) ;;
  py_mul x (radius self).

(** [diameter / 2] on an int: true division, the quotient rounded once to
    the nearest double, OverflowError when that is no finite double. *)
Definition halve (diameter : Z) : result float :=
  let f := SF2Prim (binary_normalize prec emax diameter (-1) false) in
  if is_finite f then Ok f else Raise OverflowError.

(** The class method; the class has no subclass, so [cls] is the class
    itself. *)
Definition from_diameter (diameter : Z) : result circle :=
  r <- halve diameter ;; Ok (Circle_init (PyFloat r)).

Definition unit_circle : circle := Circle_init (PyInt 1).

(** What the global name [Circle] is bound to when [area] runs: this class
    up to line 113, the subclass of [Shape] from line 114 on. *)
Inductive circle_global : Type :=
| First_Circle
| Shape_Circle.

(** [Circle.pi]: the second class has no such attribute. *)
Definition class_pi (g : circle_global) : result float :=
  match g with
  | First_Circle => Ok pi
  | Shape_Circle => Raise AttributeError
  end.

(** [area] with the binding of the global name it reads; [area] above is
    its instance at the first binding. *)
Definition area_in (g : circle_global) (self : circle) : result pynum :=
  p <- class_pi g ;;
  x <- py_mul (PyFloat p) (radius self) ;;
  py_mul x (radius self).

End Circles.

(** ** Runs of calls *)

Module Runs.

(** Deposits made one after the other on the same account. *)
Fixpoint deposit_all (amounts : list Z) : meth Bank.BankAccount unit :=
  match amounts with
  | [] => ret tt
  | amount :: rest => Bank.deposit amount ;> deposit_all rest
  end.

(** What a list of amounts adds to a balance: the positive ones. *)
Definition deposited (amounts : list Z) : Z :=
  fold_right (fun amount total => Z.max 0 amount + total) 0 amounts.

(** What a list of calls adds to a mileage: the positive distances. *)
Definition driven_total (cs : list Vehicles.call) : Z :=
  fold_right
    (fun c total =>
       match c with
       | Vehicles.Call_drive d => Z.max 0 d + total
       | _ => total
       end) 0 cs.

(** The battery level of a scooter. *)
Definition battery_of (v : Vehicles.vehicle) : option pynum :=
  match v with
  | Vehicles.ElectricScooter _ b => Some b
  | _ => None
  end.

Definition fuel_of (v : Vehicles.vehicle) : option Z :=
  match v with
  | Vehicles.Car _ f => Some f
  | _ => None
  end.

(** A scooter whose level is a number and not below zero. *)
Definition level_nonneg (v : Vehicles.vehicle) : Prop :=
  exists a b, v = Vehicles.ElectricScooter a b /\
              is_nan_num b = false /\ py_lt b (PyInt 0) = false.

(** A scooter whose level, while still an int, is within the doubles. *)
Definition level_in_range (v : Vehicles.vehicle) : Prop :=
  exists a b, v = Vehicles.ElectricScooter a b /\
              match b with
              | PyInt z => Z.abs z < 2 ^ 1023
              | PyFloat _ => True
              end.

(** No lower-case ASCII letter in a string. *)
Fixpoint no_lower (s : string) : bool :=
  match s with
  | EmptyString => true
  | String c s' => negb (PyStr.is_lower c) && no_lower s'
  end.

(** The sign of a float that has one. *)
Definition SF_sign (x : spec_float) : option bool :=
  match x with
  | S754_zero s | S754_infinity s | S754_finite s _ _ => Some s
  | S754_nan => None
  end.

End Runs.

(** * Facts *)

(** ** Binary64 arithmetic

    The kernel's float operations are specified on [spec_float]; what the
    battery needs from them is that no step of [drive] makes a NaN: a finite
    double times [0.1] is finite, and a number minus a finite double is a
    number. *)

Module FloatFacts.

Lemma digits2_size p : digits2_pos p = Pos.size p.
Proof. induction p; simpl; congruence. Qed.

Lemma Zdigits2_nonneg m : 0 <= Zdigits2 m.
Proof. destruct m; simpl; lia. Qed.

Lemma shr_1_m_nonneg mrs : 0 <= shr_m mrs -> 0 <= shr_m (shr_1 mrs).
Proof.
  destruct mrs as [m r s]; simpl; intros H.
  destruct m as [|[p|p|]|[p|p|]]; simpl; lia.
Qed.

Lemma shr_1_digits mrs :
  Zdigits2 (shr_m (shr_1 mrs)) = Z.max 0 (Zdigits2 (shr_m mrs) - 1).
Proof.
  destruct mrs as [m r s].
  destruct m as [|[p|p|]|[p|p|]]; cbn [shr_1 shr_m Zdigits2 digits2_pos];
    rewrite ?Pos2Z.inj_succ; lia.
Qed.

Lemma iter_shr_1_nonneg p : forall mrs,
  0 <= shr_m mrs -> 0 <= shr_m (iter_pos shr_1 p mrs).
Proof.
  induction p; simpl; intros mrs H; auto using shr_1_m_nonneg.
Qed.

Lemma iter_shr_1_digits p : forall mrs,
  Zdigits2 (shr_m (iter_pos shr_1 p mrs)) = Z.max 0 (Zdigits2 (shr_m mrs) - Z.pos p).
Proof.
  induction p; simpl; intros mrs.
  - rewrite !IHp, shr_1_digits. pose proof (Zdigits2_nonneg (shr_m mrs)). lia.
  - rewrite !IHp. pose proof (Zdigits2_nonneg (shr_m mrs)). lia.
  - apply shr_1_digits.
Qed.

Lemma SFeqb_refl x : SFeqb x x = negb (SF_is_nan x).
Proof.
  destruct x as [s|s| |s m e]; try (destruct s; reflexivity); try reflexivity.
  unfold SFeqb, SFcompare.
  destruct s; rewrite Z.compare_refl, Pos.compare_cont_refl; reflexivity.
Qed.

Lemma is_nan_SF f : is_nan f = SF_is_nan (Prim2SF f).
Proof.
  unfold is_nan. rewrite eqb_spec, SFeqb_refl. apply negb_involutive.
Qed.

Lemma is_finite_SF f : is_finite f = SF_is_finite (Prim2SF f).
Proof.
  unfold is_finite, is_infinity.
  rewrite is_nan_SF, eqb_spec, abs_spec.
  change (Prim2SF infinity) with (S754_infinity false).
  destruct (Prim2SF f) as [s|s| |s m e]; reflexivity.
Qed.

Lemma shr_record_of_loc_m m l : shr_m (shr_record_of_loc m l) = m.
Proof. destruct l as [|[]]; reflexivity. Qed.

Section Round.
Variables prec emax : Z.
Hypothesis prec_pos : 0 <= prec.

Lemma shr_fexp_spec m e l :
  0 <= m ->
  let mrs := fst (shr_fexp prec emax m e l) in
  let e' := snd (shr_fexp prec emax m e l) in
  0 <= shr_m mrs /\
  e' = Z.max e (fexp prec emax (Zdigits2 m + e)) /\
  Zdigits2 (shr_m mrs) = Z.max 0 (Zdigits2 m - (e' - e)).
Proof.
  intros Hm. unfold shr_fexp, shr.
  pose proof (Zdigits2_nonneg m) as Hd.
  destruct (fexp prec emax (Zdigits2 m + e) - e) as [|p|p] eqn:En; cbn [fst snd].
  - rewrite shr_record_of_loc_m. lia.
  - split; [|split].
    + apply iter_shr_1_nonneg. now rewrite shr_record_of_loc_m.
    + lia.
    + rewrite iter_shr_1_digits, shr_record_of_loc_m. lia.
  - rewrite shr_record_of_loc_m. lia.
Qed.

Lemma size_succ p : Z.pos (Pos.size (Pos.succ p)) <= Z.pos (Pos.size p) + 1.
Proof.
  induction p; cbn [Pos.succ Pos.size]; rewrite ?Pos2Z.inj_succ; lia.
Qed.

Lemma Zdigits2_succ m : 0 <= m -> Zdigits2 (m + 1) <= Zdigits2 m + 1.
Proof.
  intros Hm. destruct m as [|p|p]; [simpl; lia| |lia].
  change (Z.pos p + 1) with (Z.pos (p + 1)). cbn [Zdigits2].
  rewrite Pos.add_1_r, !digits2_size. apply size_succ.
Qed.

Lemma Zdigits2_round m l :
  0 <= m ->
  0 <= round_nearest_even m l /\ Zdigits2 (round_nearest_even m l) <= Zdigits2 m + 1.
Proof.
  intros Hm. pose proof (Zdigits2_succ m Hm).
  destruct l as [|[]]; cbn [round_nearest_even]; try destruct (Z.even m); lia.
Qed.

Lemma binary_round_aux_not_nan sx mx ex lx :
  0 <= mx -> SF_is_nan (binary_round_aux prec emax sx mx ex lx) = false.
Proof.
  intros Hm. unfold binary_round_aux.
  destruct (shr_fexp_spec mx ex lx Hm) as (H1 & _ & _).
  destruct (shr_fexp prec emax mx ex lx) as [mrs' e']; cbn [fst snd] in *.
  destruct (Zdigits2_round (shr_m mrs') (loc_of_shr_record mrs') H1) as (H2 & _).
  destruct (shr_fexp_spec (round_nearest_even (shr_m mrs') (loc_of_shr_record mrs')) e'
              loc_Exact H2) as (H3 & _ & _).
  destruct (shr_fexp prec emax _ e' loc_Exact) as [mrs'' e'']; cbn [fst snd] in *.
  destruct (shr_m mrs'') as [|p|p]; [reflexivity| |lia].
  destruct (e'' <=? emax - prec); reflexivity.
Qed.

Lemma binary_round_aux_finite sx mx ex lx :
  0 <= mx ->
  ex < emax - prec ->
  Zdigits2 mx + ex < emax ->
  3 - emax - prec < emax - prec ->
  SF_is_finite (binary_round_aux prec emax sx mx ex lx) = true.
Proof.
  intros Hm He Hd Hmin. unfold binary_round_aux.
  destruct (shr_fexp_spec mx ex lx Hm) as (H1 & E1 & D1).
  destruct (shr_fexp prec emax mx ex lx) as [mrs' e']; cbn [fst snd] in *.
  destruct (Zdigits2_round (shr_m mrs') (loc_of_shr_record mrs') H1) as (H2 & D2).
  destruct (shr_fexp_spec (round_nearest_even (shr_m mrs') (loc_of_shr_record mrs')) e'
              loc_Exact H2) as (H3 & E3 & _).
  destruct (shr_fexp prec emax _ e' loc_Exact) as [mrs'' e'']; cbn [fst snd] in *.
  destruct (shr_m mrs'') as [|p|p]; [reflexivity| |lia].
  unfold fexp, emin in *.
  destruct (Z.leb_spec e'' (emax - prec)); [reflexivity|lia].
Qed.

End Round.

Lemma Zdigits2_log2 p : Zdigits2 (Z.pos p) = Z.log2 (Z.pos p) + 1.
Proof.
  cbn [Zdigits2]. rewrite digits2_size.
  destruct p; cbn [Pos.size Z.log2]; rewrite ?Pos2Z.inj_succ; lia.
Qed.

Lemma Zdigits2_mul p q :
  Zdigits2 (Z.pos (p * q)) <= Zdigits2 (Z.pos p) + Zdigits2 (Z.pos q).
Proof.
  rewrite !Zdigits2_log2, Pos2Z.inj_mul.
  pose proof (Z.log2_mul_above (Z.pos p) (Z.pos q)). lia.
Qed.

Lemma valid_finite_bounds s m e :
  valid_binary (S754_finite s m e) = true ->
  Zdigits2 (Z.pos m) <= prec /\ e <= emax - prec.
Proof.
  unfold SpecFloat.valid_binary, bounded, canonical_mantissa, fexp, emin.
  intros H. apply andb_true_iff in H. destruct H as [H1 H2].
  apply Z.eqb_eq in H1. apply Z.leb_le in H2. cbn [Zdigits2].
  unfold prec, emax in *. lia.
Qed.

Lemma mul_tenth_finite t : is_finite t = true -> is_finite (t * tenth) = true.
Proof.
  rewrite !is_finite_SF, mul_spec.
  change (Prim2SF tenth) with (S754_finite false 7205759403792794 (-56)).
  pose proof (Prim2SF_valid t) as Hv.
  destruct (Prim2SF t) as [s|s| |s m e]; try discriminate; [reflexivity|].
  intros _. apply valid_finite_bounds in Hv. destruct Hv as [Hd He].
  unfold SF64mul, SFmul.
  apply binary_round_aux_finite; try (unfold prec, emax in *; lia).
  pose proof (Zdigits2_mul m 7205759403792794) as Hm.
  change (Zdigits2 7205759403792794) with 53 in Hm.
  unfold prec, emax in *. lia.
Qed.

Lemma binary_normalize_not_nan m e sz :
  SF_is_nan (binary_normalize prec emax m e sz) = false.
Proof.
  destruct m as [|p|p]; cbn [binary_normalize]; [reflexivity| |];
    unfold binary_round;
    match goal with |- context [shl_align ?a ?b ?c] => destruct (shl_align a b c) end;
    apply binary_round_aux_not_nan; lia.
Qed.

Lemma sub_not_nan x y :
  is_nan x = false -> is_finite y = true -> is_nan (x - y) = false.
Proof.
  rewrite !is_nan_SF, is_finite_SF, sub_spec.
  destruct (Prim2SF x) as [sx|sx| |sx mx ex]; try discriminate;
    destruct (Prim2SF y) as [sy|sy| |sy my ey]; try discriminate; intros _ _;
    try reflexivity; try (destruct sx, sy; reflexivity).
  apply binary_normalize_not_nan.
Qed.

End FloatFacts.

(** ** Numbers *)

Section NumFacts.

Import FloatFacts.

Lemma float_of_int_finite z f : float_of_int z = Ok f -> is_finite f = true.
Proof.
  unfold float_of_int.
  destruct (is_finite (SF2Prim (binary_normalize prec emax z 0 false))) eqn:E;
    intros H; inversion H; subst; exact E.
Qed.

Lemma finite_not_nan f : is_finite f = true -> is_nan f = false.
Proof.
  unfold is_finite. destruct (is_nan f); [discriminate|reflexivity].
Qed.

Lemma as_float_not_nan b f :
  is_nan_num b = false -> as_float b = Ok f -> is_nan f = false.
Proof.
  destruct b as [z|g]; cbn [is_nan_num as_float]; intros Hb H.
  - apply finite_not_nan, (float_of_int_finite z), H.
  - inversion H; subst; exact Hb.
Qed.

(** [distance * 0.1], when it has a value, is a finite float. *)
Lemma used_finite distance used :
  py_mul (PyInt distance) (PyFloat tenth) = Ok used ->
  exists u, used = PyFloat u /\ is_finite u = true.
Proof.
  cbn [py_mul as_float]. destruct (float_of_int distance) as [t|e] eqn:E;
    cbn [bind]; intros H; inversion H; subst.
  eexists; split; [reflexivity|].
  apply mul_tenth_finite, (float_of_int_finite distance), E.
Qed.

(** [previous_battery - used] is a float, and a number when the previous
    level was one. *)
Lemma level_not_nan b u x :
  is_nan_num b = false -> is_finite u = true ->
  py_sub b (PyFloat u) = Ok x ->
  exists y, x = PyFloat y /\ is_nan y = false.
Proof.
  intros Hb Hu H.
  assert (E : x0 <- as_float b ;; Ok (PyFloat (x0 - u)%float) = Ok x)
    by (destruct b; exact H).
  destruct (as_float b) as [g|e] eqn:Eb; cbn [bind] in E; inversion E; subst.
  eexists; split; [reflexivity|].
  apply sub_not_nan; [exact (as_float_not_nan b g Hb Eb)|exact Hu].
Qed.

Lemma float_cmp_int_0 f :
  float_cmp_int f 0 =
  match Prim2SF f with
  | S754_nan => None
  | S754_zero _ => Some Eq
  | S754_infinity s | S754_finite s _ _ => Some (if s then Lt else Gt)
  end.
Proof.
  unfold float_cmp_int.
  destruct (Prim2SF f) as [s|s| |s m e]; try reflexivity.
  f_equal. destruct (Z.leb_spec 0 e) as [He|He].
  - pose proof (Z.pow_pos_nonneg 2 e ltac:(lia) He).
    destruct s; [apply Z.compare_lt_iff|apply Z.compare_gt_iff]; nia.
  - destruct s; reflexivity.
Qed.

Lemma py_eq_float_refl f : is_nan f = false -> py_eq (PyFloat f) (PyFloat f) = true.
Proof.
  rewrite is_nan_SF. unfold py_eq, py_compare. rewrite compare_spec.
  pose proof (SFeqb_refl (Prim2SF f)) as H. unfold SFeqb in H.
  intros Hn. rewrite Hn in H. cbn [negb] in H.
  destruct (SFcompare (Prim2SF f) (Prim2SF f)) as [[]|]; try discriminate.
  reflexivity.
Qed.

(** The clamp of [ElectricScooter.drive] agrees with [max(0, x)] on every
    float that is a number, and leaves nothing below zero. *)
Lemma clamp_is_max x :
  is_nan x = false ->
  let b := if py_lt (PyFloat x) (PyInt 0) then PyInt 0 else PyFloat x in
  py_eq b (py_max (PyInt 0) (PyFloat x)) = true /\ py_lt b (PyInt 0) = false.
Proof.
  intros Hn. pose proof (py_eq_float_refl x Hn) as Hr.
  rewrite is_nan_SF in Hn.
  assert (C := float_cmp_int_0 x).
  unfold py_max, py_lt, py_gt.
  cbn [py_compare].
  destruct (Prim2SF x) as [s|s| |s m e]; try discriminate;
    try destruct s; rewrite C; cbn [py_compare];
    unfold py_eq; cbn [py_compare]; rewrite ?C; auto.
Qed.

End NumFacts.

(** ** Vehicles: [drive] *)

Section DriveFacts.

Import Vehicles.

Lemma drive_Vehicle a d : drive d (Vehicle a) = (Vehicle (driven d a), Ok tt).
Proof.
  unfold drive, Vehicle_drive, driven. cbn [class_of].
  destruct (d >? 0); reflexivity.
Qed.

Lemma drive_Car a f d : drive d (Car a f) = (Car (driven d a) f, Ok tt).
Proof.
  unfold drive, Vehicle_drive, driven. cbn [class_of].
  destruct (d >? 0); reflexivity.
Qed.

(** The override, step by step: the mileage moves first, then the two float
    operations may raise, then the level is stored and clamped. *)
Lemma drive_ElectricScooter a b d :
  drive d (ElectricScooter a b) =
  match py_mul (PyInt d) (PyFloat tenth) with
  | Raise e => (ElectricScooter (driven d a) b, Raise e)
  | Ok used =>
      match py_sub b used with
      | Raise e => (ElectricScooter (driven d a) b, Raise e)
      | Ok x =>
          (ElectricScooter (driven d a) (if py_lt x (PyInt 0) then PyInt 0 else x),
           Ok tt)
      end
  end.
Proof.
  unfold drive, ElectricScooter_drive, Vehicle_drive, driven, seq, lift.
  cbn [class_of].
  destruct (d >? 0); cbn [get_battery set_mileage base mileage];
    destruct (py_mul (PyInt d) (PyFloat tenth)) as [used|e]; try reflexivity;
    destruct (py_sub b used) as [x|e]; try reflexivity;
    cbn [set_battery get_battery]; destruct (py_lt x (PyInt 0)); reflexivity.
Qed.

Lemma mileage_driven d a : _mileage (driven d a) = _mileage a + Z.max 0 d.
Proof.
  unfold driven. destruct (Z.gtb_spec d 0); cbn [_mileage]; lia.
Qed.

(** Whatever the class and whatever the outcome, [drive] adds the positive
    part of the distance to the mileage. *)
Lemma mileage_drive d v : mileage (fst (drive d v)) = mileage v + Z.max 0 d.
Proof.
  destruct v as [a|a f|a b].
  - rewrite drive_Vehicle. apply mileage_driven.
  - rewrite drive_Car. apply mileage_driven.
  - rewrite drive_ElectricScooter.
    destruct (py_mul (PyInt d) (PyFloat tenth)) as [used|e];
      [destruct (py_sub b used) as [x|e]|]; apply mileage_driven.
Qed.

Lemma mileage_after c v : mileage v <= mileage (after c v).
Proof.
  destruct c; cbn [after]; try lia. rewrite mileage_drive. lia.
Qed.

Lemma after_all_app cs1 cs2 v :
  after_all (cs1 ++ cs2) v = after_all cs2 (after_all cs1 v).
Proof. unfold after_all. apply fold_left_app. Qed.

Lemma mileage_after_all cs : forall v, mileage v <= mileage (after_all cs v).
Proof.
  induction cs as [|c cs IH]; intros v; cbn [after_all fold_left]; [lia|].
  etransitivity; [apply (mileage_after c)|apply IH].
Qed.

Lemma construct_mileage c v : construct c = Ok v -> mileage v = 0.
Proof.
  destruct c as [mk md y|mk md y f|mk md y b|cls s]; cbn [construct];
    try (intros H; inversion H; reflexivity).
  unfold from_string.
  destruct (PyStr.split "-" s) as [|f1 [|f2 [|f3 [|f4 fs]]]]; try discriminate.
  destruct (PyStr.py_int f3); [|discriminate].
  destruct cls; cbn [call_class3]; intros H; inversion H; reflexivity.
Qed.

(** A scooter stays a scooter, and its level stays a number. *)
Lemma scooter_ok_drive d v : scooter_ok v -> scooter_ok (fst (drive d v)).
Proof.
  intros (a & b & -> & Hb). rewrite drive_ElectricScooter.
  destruct (py_mul (PyInt d) (PyFloat tenth)) as [used|e] eqn:Eu;
    [|exists (driven d a), b; auto].
  destruct (used_finite d used Eu) as (u & -> & Hu).
  destruct (py_sub b (PyFloat u)) as [x|e] eqn:Ex;
    [|exists (driven d a), b; auto].
  destruct (level_not_nan b u x Hb Hu Ex) as (y & -> & Hy).
  cbn [fst]. destruct (py_lt (PyFloat y) (PyInt 0));
    eexists _, _; split; try reflexivity; auto.
Qed.

Lemma scooter_ok_after_all cs : forall v, scooter_ok v -> scooter_ok (after_all cs v).
Proof.
  induction cs as [|c cs IH]; intros v Hv; cbn [after_all fold_left]; [exact Hv|].
  apply IH. destruct c; cbn [after]; auto using scooter_ok_drive.
Qed.

Lemma scooter_ok_new mk md y b : scooter_ok (new_ElectricScooter mk md y b).
Proof. eexists _, _; split; reflexivity. Qed.

End DriveFacts.

(** ** Strings *)

Section StrFacts.

Import PyStr.

Lemma upper_char_not_lower c : is_lower (upper_char c) = false.
Proof.
  destruct c as [[] [] [] [] [] [] [] []]; reflexivity.
Qed.

Lemma upper_char_idem c : upper_char (upper_char c) = upper_char c.
Proof.
  unfold upper_char at 1. now rewrite upper_char_not_lower.
Qed.

Lemma upper_idem s : ascii_upper (ascii_upper s) = ascii_upper s.
Proof.
  induction s as [|c s IH]; cbn [ascii_upper]; [reflexivity|].
  now rewrite upper_char_idem, IH.
Qed.

Lemma upper_length s : String.length (ascii_upper s) = String.length s.
Proof.
  induction s as [|c s IH]; cbn [ascii_upper String.length]; congruence.
Qed.

Lemma split_nonempty sep s : split sep s <> [].
Proof.
  destruct s as [|c s]; cbn [split]; [discriminate|].
  destruct (Ascii.eqb c sep); [discriminate|].
  destruct (split sep s); discriminate.
Qed.

Lemma split_app a rest :
  dash_free a = true ->
  split "-" (a ++ String "-" rest) = a :: split "-" rest.
Proof.
  induction a as [|c a IH]; cbn [dash_free append split]; intros H.
  - reflexivity.
  - apply andb_true_iff in H. destruct H as [Hc Ha].
    apply negb_true_iff in Hc. rewrite Hc, (IH Ha). reflexivity.
Qed.

Lemma split_dash_free a : dash_free a = true -> split "-" a = [a].
Proof.
  induction a as [|c a IH]; cbn [dash_free split]; intros H.
  - reflexivity.
  - apply andb_true_iff in H. destruct H as [Hc Ha].
    apply negb_true_iff in Hc. rewrite Hc, (IH Ha). reflexivity.
Qed.

Lemma join_cons c f fs :
  join "-" (String c f :: fs) = String c (join "-" (f :: fs)).
Proof. destruct fs; reflexivity. Qed.

(** [split] cuts at every dash and loses nothing. *)
Lemma split_fields s :
  Forall (fun f => dash_free f = true) (split "-" s) /\ join "-" (split "-" s) = s.
Proof.
  induction s as [|c s [IHf IHj]]; cbn [split].
  - split; [repeat constructor|reflexivity].
  - destruct (Ascii.eqb_spec c "-") as [->|Hc].
    + split; [constructor; [reflexivity|exact IHf]|].
      destruct (split "-" s) as [|f fs] eqn:E; [now apply split_nonempty in E|].
      cbn [join]. cbn [join] in IHj. now rewrite IHj.
    + destruct (split "-" s) as [|f fs] eqn:E; [now apply split_nonempty in E|].
      pose proof (Forall_inv IHf) as Hf. pose proof (Forall_inv_tail IHf) as Hfs.
      cbn beta in Hf. split.
      * constructor; [|exact Hfs]. cbn [dash_free]. rewrite Hf.
        apply Ascii.eqb_neq in Hc. now rewrite Hc.
      * rewrite join_cons. now rewrite IHj.
Qed.

Lemma three_fields_split s a b c :
  three_fields s a b c <-> split "-" s = [a; b; c].
Proof.
  split.
  - intros (Ha & Hb & Hc & ->). cbn [join].
    rewrite (split_app a _ Ha), (split_app b _ Hb), (split_dash_free c Hc).
    reflexivity.
  - intros E. destruct (split_fields s) as [Hf Hj]. rewrite E in Hf, Hj.
    pose proof (Forall_inv Hf) as Ha.
    pose proof (Forall_inv (Forall_inv_tail Hf)) as Hb.
    pose proof (Forall_inv (Forall_inv_tail (Forall_inv_tail Hf))) as Hc.
    repeat split; auto.
Qed.

End StrFacts.

(** ** Rendering and reporting *)

Section ReportFacts.

Import Vehicles.

Variable float_repr : float -> string.

(** [get_info] returns on every vehicle: each class reads only attributes
    its own [__init__] has bound. *)
Lemma get_info_returns v : exists line, get_info float_repr v = Ok line.
Proof. destruct v; eexists; reflexivity. Qed.

Lemma report_step x line rest out :
  call_get_info float_repr x = Ok line ->
  print_vehicle_report float_repr (x :: rest) out
  = print_vehicle_report float_repr rest (out ++ [line])%list.
Proof.
  intros H. cbn [print_vehicle_report]. unfold seq, lift, print.
  now rewrite H.
Qed.

Lemma report_stop x e rest out :
  call_get_info float_repr x = Raise e ->
  print_vehicle_report float_repr (x :: rest) out = (out, Raise e).
Proof.
  intros H. cbn [print_vehicle_report]. unfold seq, lift. now rewrite H.
Qed.

End ReportFacts.

(** ** The lecture's own runs *)

Section Checks.

Import Bank Shapes Vehicles.

Example lecture_account :
  (x <~ Bank.deposit 500 ;; Bank.get_balance) (Bank.new "Alice" (Some 1000))
  = ({| owner := "Alice"; __balance := 1500 |}, Ok 1500).
Proof. reflexivity. Qed.

Example lecture_describe :
  describe (from_description PyStr.ascii_upper Shape "hexagon")
  = "This is a shape named HEXAGON" /\
  describe (from_description PyStr.ascii_upper Circle "donut")
  = "A circle named DONUT".
Proof. split; reflexivity. Qed.

Example split_keeps_empty_fields :
  PyStr.split "-" "a--b-" = ["a"; ""; "b"; ""] /\ PyStr.split "-" "" = [""].
Proof. split; reflexivity. Qed.

Example py_int_forms :
  PyStr.py_int " +2_018 " = Some 2018 /\
  PyStr.py_int "0012" = Some 12 /\
  PyStr.py_int "2__0" = None /\
  PyStr.py_int "20_" = None /\
  PyStr.py_int "2 0" = None /\
  PyStr.py_int "" = None.
Proof. repeat split. Qed.

Example float_of_int_rounds_to_even :
  float_of_int (2 ^ 53 + 1) = Ok 9007199254740992%float /\
  float_of_int (2 ^ 53 + 3) = Ok 9007199254740996%float.
Proof. split; reflexivity. Qed.

Example float_of_int_overflows :
  float_of_int (2 ^ 1024 - 2 ^ 970 - 1) = Ok 0x1.fffffffffffffp1023%float /\
  float_of_int (2 ^ 1024 - 2 ^ 970) = Raise OverflowError.
Proof. split; vm_compute; reflexivity. Qed.

Example lecture_scooter :
  drive 100 (new_ElectricScooter "Xiaomi" "M365" 2022 85)
  = (ElectricScooter {| make := "Xiaomi"; model := "M365"; year := 2022;
                        _mileage := 100 |} (PyFloat 75), Ok tt).
Proof. reflexivity. Qed.

Example scooter_runs_flat :
  drive 1000 (new_ElectricScooter "Xiaomi" "M365" 2022 85)
  = (ElectricScooter {| make := "Xiaomi"; model := "M365"; year := 2022;
                        _mileage := 1000 |} (PyInt 0), Ok tt).
Proof. reflexivity. Qed.

Example scooter_zero_distance :
  drive 0 (new_ElectricScooter "Xiaomi" "M365" 2022 85)
  = (ElectricScooter (Vehicle_init "Xiaomi" "M365" 2022) (PyFloat 85), Ok tt).
Proof. reflexivity. Qed.

Example from_string_through_subclass :
  from_string CarC "Honda-Civic-2018" = Raise TypeError /\
  from_string CarC "Honda-Civic-year" = Raise ValueError.
Proof. split; reflexivity. Qed.

End Checks.

(** * The claims *)

Section Claims.

Import Bank Shapes Vehicles.

(** C1.  The class method [from_description] builds an instance of the class
    it is called through: called through any class with any string [s], the
    instance has that class and the name [s.upper()], whatever [str.upper]
    makes of [s].  So [Shape.from_description] gives a Shape that is no
    Circle, [Circle.from_description] gives a Circle, which answers
    [describe] as a Circle does; "hexagon" gives the Shape named "HEXAGON"
    and "donut" the Circle named "DONUT". *)
Theorem from_description_invoking_variant (upper : string -> string) :
  upper_on_ascii upper ->
  (forall cls s,
      from_description upper cls s = {| type_of := cls; name := upper s |}) /\
  (forall s, isinstance (from_description upper Shape s) Shape = true /\
             isinstance (from_description upper Shape s) Circle = false) /\
  (forall s, isinstance (from_description upper Circle s) Circle = true /\
             type_of (from_description upper Circle s) <> Shape /\
             describe (from_description upper Circle s)
             = "A circle named " ++ upper s) /\
  from_description upper Shape "hexagon"
  = {| type_of := Shape; name := "HEXAGON" |} /\
  from_description upper Circle "donut"
  = {| type_of := Circle; name := "DONUT" |}.
Proof.
  intros Hu. split; [|split; [|split; [|split]]].
  - intros [] s; reflexivity.
  - intros s; split; reflexivity.
  - intros s; repeat split. discriminate.
  - unfold from_description. now rewrite (Hu "hexagon" eq_refl).
  - unfold from_description. now rewrite (Hu "donut" eq_refl).
Qed.

(** The statement at the ASCII upper-casing, which is [str.upper] on the
    lecture's two descriptions. *)
Lemma from_description_invoking_variant_witness :
  upper_on_ascii PyStr.ascii_upper /\
  from_description PyStr.ascii_upper Shape "hexagon"
  = {| type_of := Shape; name := "HEXAGON" |} /\
  from_description PyStr.ascii_upper Circle "donut"
  = {| type_of := Circle; name := "DONUT" |}.
Proof.
  assert (H : upper_on_ascii PyStr.ascii_upper) by (intros s _; reflexivity).
  split; [exact H|].
  exact (proj2 (proj2 (proj2 (from_description_invoking_variant _ H)))).
Defined.

(** C2.  The code does not meet the claim on an ElectricScooter.  A Vehicle
    and a Car ignore a distance that is not positive, as claimed; the
    scooter's override subtracts [distance * 0.1] from the battery without
    the guard of [Vehicle.drive], so [drive(-100)] on a scooter at 85 returns
    normally with the mileage still 0 and the battery at 95.0. *)
Theorem scooter_drive_negative_charges :
  let s := new_ElectricScooter "Xiaomi" "M365" 2022 85 in
  drive (-100) s
  = (ElectricScooter (Vehicle_init "Xiaomi" "M365" 2022) (PyFloat 95), Ok tt) /\
  fst (drive (-100) s) <> s /\
  py_gt (PyFloat 95) (PyInt 85) = true /\
  (forall a d, d <= 0 -> drive d (Vehicle a) = (Vehicle a, Ok tt)) /\
  (forall a f d, d <= 0 -> drive d (Car a f) = (Car a f, Ok tt)).
Proof.
  cbv zeta. split; [reflexivity|]. split; [discriminate|]. split; [reflexivity|].
  assert (N : forall d a, d <= 0 -> driven d a = a).
  { intros d a H. unfold driven. destruct (Z.gtb_spec d 0); [lia|reflexivity]. }
  split; intros.
  - now rewrite drive_Vehicle, N.
  - now rewrite drive_Car, N.
Qed.

(** C3, as amended.  Take any ElectricScooter whose battery level is a
    number, not NaN, and any distance above 0 for which
    [previous_battery - distance*0.1] has a value, no int in it being too
    large for a float.  Then [drive(distance)] returns normally and leaves a
    battery level equal to [max(0, previous_battery - distance*0.1)] and not
    below zero. *)
Theorem scooter_battery_after_drive
  (a : attrs) (b : pynum) (d : Z) (expected : pynum) :
  is_nan_num b = false ->
  d > 0 ->
  spec_battery b d = Ok expected ->
  battery_clamped (ElectricScooter a b) d /\
  exists b', drive d (ElectricScooter a b)
             = (ElectricScooter (driven d a) b', Ok tt) /\
             py_eq b' expected = true /\
             py_lt b' (PyInt 0) = false.
Proof.
  intros Hb _ Hspec.
  assert (G : exists b', drive d (ElectricScooter a b)
                         = (ElectricScooter (driven d a) b', Ok tt) /\
                         py_eq b' expected = true /\
                         py_lt b' (PyInt 0) = false).
  { unfold spec_battery in Hspec. rewrite drive_ElectricScooter.
    destruct (py_mul (PyInt d) (PyFloat tenth)) as [used|e] eqn:Eu;
      cbn [bind] in Hspec; [|discriminate].
    destruct (used_finite d used Eu) as (u & -> & Hu).
    destruct (py_sub b (PyFloat u)) as [x|e] eqn:Ex;
      cbn [bind] in Hspec; [|discriminate].
    destruct (level_not_nan b u x Hb Hu Ex) as (y & -> & Hy).
    destruct (clamp_is_max y Hy) as [H1 H2].
    inversion Hspec; subst expected. eexists; split; [reflexivity|]. auto. }
  split; [|exact G].
  destruct G as (b' & Hd & H1 & H2).
  exists a, b, (driven d a), b', expected. rewrite Hd. auto.
Qed.

(** The lecture's own drive: the scooter at 85 driven 100 ends at 75.0. *)
Lemma scooter_battery_after_drive_witness :
  is_nan_num (PyInt 85) = false /\
  100 > 0 /\
  spec_battery (PyInt 85) 100 = Ok (PyFloat 75) /\
  battery_clamped (new_ElectricScooter "Xiaomi" "M365" 2022 85) 100.
Proof.
  split; [reflexivity|]. split; [reflexivity|]. split; [reflexivity|].
  exact (proj1 (scooter_battery_after_drive
                  (Vehicle_init "Xiaomi" "M365" 2022) (PyInt 85) 100 (PyFloat 75)
                  eq_refl eq_refl eq_refl)).
Defined.

(** C3, as stated, fails twice.  At a distance no float holds: on a scooter
    at 85, [drive(10**400)] raises OverflowError, the battery stays at 85,
    and [85 - distance*0.1] has no value to compare it with; read over the
    integers, [max(0, 85 - distance/10)] would be 0.  And at a level that is
    no number: on a scooter whose level is NaN, [drive(100)] returns and
    leaves NaN, which equals nothing, while [max(0, nan - 100*0.1)] is 0. *)
Lemma scooter_battery_huge_distance :
  let s := new_ElectricScooter "Xiaomi" "M365" 2022 85 in
  let s' := ElectricScooter (Vehicle_init "Xiaomi" "M365" 2022) (PyFloat nan) in
  ~ battery_clamped s (10 ^ 400) /\
  drive (10 ^ 400) s
  = (ElectricScooter {| make := "Xiaomi"; model := "M365"; year := 2022;
                        _mileage := 10 ^ 400 |} (PyInt 85),
     Raise OverflowError) /\
  Z.max 0 (85 - 10 ^ 400 / 10) = 0 /\
  py_eq (PyInt 85) (PyInt 0) = false /\
  ~ battery_clamped s' 100 /\
  drive 100 s'
  = (ElectricScooter {| make := "Xiaomi"; model := "M365"; year := 2022;
                        _mileage := 100 |} (PyFloat nan), Ok tt) /\
  spec_battery (PyFloat nan) 100 = Ok (PyInt 0) /\
  py_eq (PyFloat nan) (PyInt 0) = false.
Proof.
  cbv zeta. split; [|split; [|split; [|split; [|split; [|split; [|split]]]]]].
  - intros (a & b & a' & b' & expected & Hs & Hspec & _).
    inversion Hs; subst b. vm_compute in Hspec. discriminate.
  - vm_compute. reflexivity.
  - vm_compute. reflexivity.
  - reflexivity.
  - intros (a & b & a' & b' & expected & Hs & Hspec & Hd & He & _).
    inversion Hs; subst a b. vm_compute in Hspec. inversion Hspec; subst expected.
    vm_compute in Hd. inversion Hd; subst b'. vm_compute in He. discriminate.
  - vm_compute. reflexivity.
  - vm_compute. reflexivity.
  - vm_compute. reflexivity.
Qed.

(** C4.  [deposit(amount)] with [amount > 0] adds exactly [amount] to the
    balance and returns normally; with [amount <= 0] it returns normally and
    leaves the account as it was; [get_balance()] returns the balance and
    changes nothing. *)
Theorem deposit_spec (acct : BankAccount) (amount : Z) :
  (amount > 0 ->
   deposit amount acct =
   ({| owner := owner acct; __balance := __balance acct + amount |}, Ok tt)) /\
  (amount <= 0 -> deposit amount acct = (acct, Ok tt)) /\
  get_balance acct = (acct, Ok (__balance acct)).
Proof.
  unfold deposit, get_balance. repeat split.
  - intros H. destruct (Z.gtb_spec amount 0); [reflexivity|lia].
  - intros H. destruct (Z.gtb_spec amount 0); [lia|reflexivity].
Qed.

(** The lecture's own run: Alice opens with 1000, deposits 500, reads 1500. *)
Lemma deposit_spec_witness :
  500 > 0 /\
  (x <~ deposit 500 ;; get_balance) (Bank.new "Alice" (Some 1000)) =
  ({| owner := "Alice"; __balance := 1500 |}, Ok 1500).
Proof.
  split; [reflexivity|].
  unfold seq.
  rewrite (proj1 (deposit_spec (Bank.new "Alice" (Some 1000)) 500) eq_refl).
  reflexivity.
Defined.

(** C5.  [Vehicle.from_string]: a string made of exactly three dash-free
    fields joined by dashes, the last of which [int] accepts, gives the
    Vehicle with that make and model, the int that [int] read as year and
    mileage 0 ("Honda-Civic-2018" gives Honda, Civic, 2018, 0); a string
    that is not made of three such fields raises ValueError, as
    "OnlyOneField" does, and so does one whose third field [int] rejects.
    [int_] is the built-in [int], whatever it accepts. *)
Theorem from_string_spec (int_ : string -> option Z) :
  (forall s make model ys y,
      PyStr.three_fields s make model ys ->
      int_ ys = Some y ->
      from_string_with int_ VehicleC s =
      Ok (Vehicle {| make := make; model := model; year := y; _mileage := 0 |})) /\
  (forall s,
      ~ (exists make model ys, PyStr.three_fields s make model ys) ->
      from_string_with int_ VehicleC s = Raise ValueError) /\
  (forall s make model ys,
      PyStr.three_fields s make model ys ->
      int_ ys = None ->
      from_string_with int_ VehicleC s = Raise ValueError) /\
  (int_ "2018" = Some 2018 ->
   from_string_with int_ VehicleC "Honda-Civic-2018" =
   Ok (Vehicle {| make := "Honda"; model := "Civic"; year := 2018; _mileage := 0 |})) /\
  from_string_with int_ VehicleC "OnlyOneField" = Raise ValueError.
Proof.
  split; [|split; [|split; [|split; [|reflexivity]]]].
  - intros s mk md ys y H Hy. apply three_fields_split in H.
    unfold from_string_with. rewrite H, Hy. reflexivity.
  - intros s H. unfold from_string_with.
    destruct (PyStr.split "-" s) as [|f1 [|f2 [|f3 [|f4 fs]]]] eqn:E;
      try reflexivity.
    apply three_fields_split in E. destruct H. eauto.
  - intros s mk md ys H Hy. apply three_fields_split in H.
    unfold from_string_with. rewrite H, Hy. reflexivity.
  - intros H. unfold from_string_with. cbn [PyStr.split]. cbn. now rewrite H.
Qed.

(** "Toyota-Corolla-2020", the string of the exercise text, has its three
    fields and a year that [int] reads on ASCII. *)
Lemma from_string_spec_witness :
  PyStr.three_fields "Toyota-Corolla-2020" "Toyota" "Corolla" "2020" /\
  PyStr.py_int "2020" = Some 2020 /\
  from_string_with PyStr.py_int VehicleC "Toyota-Corolla-2020" =
  Ok (Vehicle {| make := "Toyota"; model := "Corolla"; year := 2020; _mileage := 0 |}).
Proof.
  assert (H : PyStr.three_fields "Toyota-Corolla-2020" "Toyota" "Corolla" "2020")
    by (repeat split).
  split; [exact H|]. split; [reflexivity|].
  exact (proj1 (from_string_spec PyStr.py_int) _ _ _ _ _ H eq_refl).
Defined.

(** C6.  On a Vehicle, a Car or an ElectricScooter, [drive(distance)] with
    [distance > 0] adds exactly [distance] to the mileage, also when the
    scooter's battery arithmetic raises afterwards; along every sequence of
    calls the mileage never goes down; and on every object the module
    constructs it is never negative. *)
Theorem mileage_monotone :
  (forall v d, d > 0 -> mileage (fst (drive d v)) = mileage v + d) /\
  (forall v cs1 cs2,
      mileage (after_all cs1 v) <= mileage (after_all (cs1 ++ cs2) v)) /\
  (forall c v cs, construct c = Ok v -> 0 <= mileage (after_all cs v)).
Proof.
  split; [|split].
  - intros v d Hd. rewrite mileage_drive. lia.
  - intros v cs1 cs2. rewrite after_all_app. apply mileage_after_all.
  - intros c v cs Hc. pose proof (mileage_after_all cs v) as H.
    rewrite (construct_mileage c v Hc) in H. exact H.
Qed.

(** The final loop of the lecture: each of the three vehicles driven 100. *)
Lemma mileage_monotone_witness :
  100 > 0 /\
  mileage (fst (drive 100 (new_Car "Toyota" "Corolla" 2020 50))) = 0 + 100 /\
  mileage (fst (drive 100 (new_ElectricScooter "Xiaomi" "M365" 2022 85))) = 0 + 100 /\
  mileage (fst (drive 100 (new_Vehicle "Honda" "Civic" 2018))) = 0 + 100.
Proof.
  split; [reflexivity|].
  split; [|split]; exact (proj1 mileage_monotone _ 100 eq_refl).
Defined.

(** C7.  A Car built as [Car("Toyota","Corolla",2020,50)] and driven 100
    reports "2020 Toyota Corolla, Mileage: 100, Fuel Capacity: 50": year,
    make, model, mileage and fuel capacity in that order.  For every Car
    [get_info] is the rendering of [Vehicle.get_info] followed by the fuel
    capacity. *)
Theorem car_get_info_end_to_end (float_repr : float -> string) :
  (let (car, outcome) := drive 100 (new_Car "Toyota" "Corolla" 2020 50) in
   outcome = Ok tt /\
   get_info float_repr car =
   Ok "2020 Toyota Corolla, Mileage: 100, Fuel Capacity: 50") /\
  (forall a fuel_capacity,
      get_info float_repr (Car a fuel_capacity) =
      Ok (Vehicle_get_info (Car a fuel_capacity)
          ++ ", Fuel Capacity: " ++ PyStr.str_of_int fuel_capacity)) /\
  (forall a fuel_capacity,
      Vehicle_get_info (Car a fuel_capacity) = Vehicle_get_info (Vehicle a)).
Proof.
  repeat split.
Qed.

(** C8.  The code does not meet the claim: [is_charging_required] is a
    static method whose body reads the name [self], which is bound nowhere,
    so the call raises NameError on every scooter, whatever its battery
    level, instead of returning [battery < 20]. *)
Theorem is_charging_required_raises :
  (forall scooter, call_is_charging_required scooter = Raise NameError) /\
  call_is_charging_required (new_ElectricScooter "Xiaomi" "M365" 2022 10)
    = Raise NameError /\
  py_lt (PyInt 10) (PyInt 20) = true.
Proof.
  repeat split.
Qed.

(** C9.  [print_vehicle_report] calls [get_info] on the elements in list
    order and prints each result as one line after what was printed before.
    When every call returns, every line is printed and the function returns;
    when the call on some element raises, the lines of the elements before it
    are printed, the exception leaves the function, and nothing of the
    elements after it is printed, whatever they are. *)
Theorem print_vehicle_report_spec (float_repr : float -> string) :
  (forall vehicles lines out,
      Forall2 (fun x line => call_get_info float_repr x = Ok line) vehicles lines ->
      print_vehicle_report float_repr vehicles out = ((out ++ lines)%list, Ok tt)) /\
  (forall before lines x e later out,
      Forall2 (fun x line => call_get_info float_repr x = Ok line) before lines ->
      call_get_info float_repr x = Raise e ->
      print_vehicle_report float_repr (before ++ x :: later)%list out
      = ((out ++ lines)%list, Raise e)).
Proof.
  split.
  - intros vehicles lines out H. revert out.
    induction H as [|x line xs ls Hx _ IH]; intros out.
    + cbn. unfold ret. now rewrite app_nil_r.
    + rewrite (report_step _ _ line) by exact Hx.
      rewrite IH, <- app_assoc. reflexivity.
  - intros before lines x e later out H Hx. revert out.
    induction H as [|y line ys ls Hy _ IH]; intros out; cbn [app].
    + rewrite (report_stop _ _ e) by exact Hx. now rewrite app_nil_r.
    + rewrite (report_step _ _ line) by exact Hy.
      rewrite IH, <- app_assoc. reflexivity.
Qed.

(** The lecture's list, each vehicle driven 100, reported in order; the
    float 75.0 is rendered by a stand-in for [repr]. *)
Lemma print_vehicle_report_spec_witness :
  let float_repr := fun _ : float => "75.0" in
  let vehicles :=
    [E_vehicle (fst (drive 100 (new_Car "Toyota" "Corolla" 2020 50)));
     E_vehicle (fst (drive 100 (new_ElectricScooter "Xiaomi" "M365" 2022 85)));
     E_vehicle (fst (drive 100 (new_Vehicle "Honda" "Civic" 2018)))] in
  let lines :=
    ["2020 Toyota Corolla, Mileage: 100, Fuel Capacity: 50";
     "2022 Xiaomi M365, Mileage: 100, Battery: 75.0%";
     "2018 Honda Civic, Mileage: 100"] in
  Forall2 (fun x line => call_get_info float_repr x = Ok line) vehicles lines /\
  print_vehicle_report float_repr vehicles [] = (lines, Ok tt) /\
  print_vehicle_report float_repr
    ([E_vehicle (new_Vehicle "Honda" "Civic" 2018)]
       ++ E_object (Raise AttributeError) :: vehicles)%list []
  = (["2018 Honda Civic, Mileage: 0"], Raise AttributeError).
Proof.
  intros float_repr vehicles lines.
  assert (H : Forall2 (fun x line => call_get_info float_repr x = Ok line)
                vehicles lines) by (repeat constructor).
  split; [exact H|]. split.
  - exact (proj1 (print_vehicle_report_spec float_repr) vehicles lines [] H).
  - refine (proj2 (print_vehicle_report_spec float_repr)
              [E_vehicle (new_Vehicle "Honda" "Civic" 2018)]
              ["2018 Honda Civic, Mileage: 0"]
              (E_object (Raise AttributeError)) AttributeError vehicles [] _ eq_refl).
    repeat constructor.
Defined.

(** C10.  For every vehicle of the three classes, in whatever state,
    [str(v)] is [v.get_info()]: the Car's string carries the fuel capacity
    and the ElectricScooter's the battery level. *)
Theorem str_is_get_info (float_repr : float -> string) :
  (forall v, str float_repr v = get_info float_repr v) /\
  (forall a f,
     str float_repr (Car a f) =
     Ok (Vehicle_get_info (Car a f) ++ ", Fuel Capacity: " ++ PyStr.str_of_int f)) /\
  (forall a b,
     str float_repr (ElectricScooter a b) =
     Ok (Vehicle_get_info (ElectricScooter a b)
         ++ ", Battery: " ++ str_of_num float_repr b ++ "%")).
Proof.
  split; [intros []; reflexivity|].
  split; reflexivity.
Qed.

End Claims.

(** * Further properties *)

From Stdlib Require Decimal DecimalPos Permutation.

(** ** Binary64: validity, range, sign *)

Module FloatRange.

Import FloatFacts Runs.

Lemma size_le_succ p : Z.pos (Pos.size p) <= Z.pos (Pos.size (Pos.succ p)).
Proof.
  induction p; cbn [Pos.succ Pos.size]; rewrite ?Pos2Z.inj_succ; lia.
Qed.

Lemma Zdigits2_le_succ m : 0 <= m -> Zdigits2 m <= Zdigits2 (m + 1).
Proof.
  intros Hm. destruct m as [|p|p]; [simpl; lia| |lia].
  change (Z.pos p + 1) with (Z.pos (p + 1)). cbn [Zdigits2].
  rewrite Pos.add_1_r, !digits2_size. apply size_le_succ.
Qed.

Lemma Zdigits2_round_ge m l : 0 <= m -> Zdigits2 m <= Zdigits2 (round_nearest_even m l).
Proof.
  intros Hm. pose proof (Zdigits2_le_succ m Hm).
  destruct l as [|[]]; cbn [round_nearest_even]; try destruct (Z.even m); lia.
Qed.

Section Valid.
Variables prec emax : Z.
Hypothesis prec_pos : 0 < prec.

(** The rounding core gives a valid float when its input is not coarser
    than the format. *)
Lemma binary_round_aux_valid sx mx ex lx :
  0 <= mx ->
  ex <= fexp prec emax (Zdigits2 mx + ex) ->
  SpecFloat.valid_binary prec emax (binary_round_aux prec emax sx mx ex lx) = true.
Proof.
  intros Hm He. unfold binary_round_aux.
  destruct (shr_fexp_spec prec emax mx ex lx Hm) as (H1 & E1 & D1).
  destruct (shr_fexp prec emax mx ex lx) as [mrs' e']; cbn [fst snd] in *.
  destruct (Zdigits2_round (shr_m mrs') (loc_of_shr_record mrs') H1) as (H2 & D2).
  pose proof (Zdigits2_round_ge (shr_m mrs') (loc_of_shr_record mrs') H1) as D2'.
  destruct (shr_fexp_spec prec emax (round_nearest_even (shr_m mrs') (loc_of_shr_record mrs')) e'
              loc_Exact H2) as (H3 & E3 & D3).
  destruct (shr_fexp prec emax _ e' loc_Exact) as [mrs'' e'']; cbn [fst snd] in *.
  destruct (shr_m mrs'') as [|p|p] eqn:Ep; [reflexivity| |reflexivity].
  destruct (Z.leb_spec e'' (emax - prec)) as [Hle|Hgt]; [|reflexivity].
  cbn [SpecFloat.valid_binary]. unfold bounded, canonical_mantissa.
  apply andb_true_iff. split; [|now apply Z.leb_le].
  apply Z.eqb_eq.
  change (Z.pos (digits2_pos p)) with (Zdigits2 (Z.pos p)).
  pose proof (Zdigits2_nonneg mx). pose proof (Zdigits2_nonneg (shr_m mrs')).
  assert (0 < Zdigits2 (Z.pos p)) by (cbn; lia).
  unfold fexp, emin in *. lia.
Qed.
End Valid.

Lemma iter_xO_digits d m :
  Z.pos (digits2_pos (Pos.iter xO m d)) = Z.pos (digits2_pos m) + Z.pos d.
Proof.
  induction d as [|d IH] using Pos.peano_ind.
  - cbn [digits2_pos Pos.iter]. lia.
  - rewrite Pos.iter_succ. cbn [digits2_pos]. rewrite Pos2Z.inj_succ, IH. lia.
Qed.

Lemma iter_xO_value d m : Z.pos (Pos.iter xO m d) = Z.pos m * 2 ^ Z.pos d.
Proof.
  induction d as [|d IH] using Pos.peano_ind.
  - cbn [Pos.iter]. lia.
  - rewrite Pos.iter_succ, Pos2Z.inj_succ, Z.pow_succ_r by lia.
    rewrite Pos2Z.inj_xO, IH. ring.
Qed.

Section Valid2.
Variables prec emax : Z.
Hypothesis prec_pos : 0 < prec.

Lemma shl_align_spec mx ex :
  let '(mz, ez) := shl_align mx ex (fexp prec emax (Z.pos (digits2_pos mx) + ex)) in
  ez <= fexp prec emax (Zdigits2 (Z.pos mz) + ez) /\
  Zdigits2 (Z.pos mz) + ez = Z.pos (digits2_pos mx) + ex /\
  ez = Z.min ex (fexp prec emax (Z.pos (digits2_pos mx) + ex)) /\
  Z.pos mz = Z.pos mx * 2 ^ (ex - ez).
Proof.
  unfold shl_align.
  destruct (fexp prec emax (Z.pos (digits2_pos mx) + ex) - ex) as [|d|d] eqn:E;
    cbn [Zdigits2].
  - replace (ex - ex) with 0 by lia. rewrite Z.pow_0_r. lia.
  - replace (ex - ex) with 0 by lia. rewrite Z.pow_0_r. lia.
  - rewrite iter_xO_digits, iter_xO_value.
    replace (ex - fexp prec emax (Z.pos (digits2_pos mx) + ex)) with (Z.pos d) by lia.
    repeat split; try lia.
    replace (Z.pos (digits2_pos mx) + Z.pos d +
             fexp prec emax (Z.pos (digits2_pos mx) + ex))
      with (Z.pos (digits2_pos mx) + ex) by lia. lia.
Qed.

Lemma binary_round_valid sx mx ex :
  SpecFloat.valid_binary prec emax (binary_round prec emax sx mx ex) = true.
Proof.
  unfold binary_round. pose proof (shl_align_spec mx ex) as H.
  destruct (shl_align mx ex _) as [mz ez]. destruct H as (H & _).
  apply binary_round_aux_valid; [exact prec_pos|lia|exact H].
Qed.

Lemma binary_normalize_valid m e sz :
  SpecFloat.valid_binary prec emax (binary_normalize prec emax m e sz) = true.
Proof.
  destruct m; cbn [binary_normalize]; [reflexivity| |]; apply binary_round_valid.
Qed.
End Valid2.

Section Sign.
Variables prec emax : Z.

Lemma binary_round_aux_sign sx mx ex lx :
  0 <= mx -> SF_sign (binary_round_aux prec emax sx mx ex lx) = Some sx.
Proof.
  intros Hm. unfold binary_round_aux.
  destruct (shr_fexp_spec prec emax mx ex lx Hm) as (H1 & _ & _).
  destruct (shr_fexp prec emax mx ex lx) as [mrs' e']; cbn [fst snd] in *.
  destruct (Zdigits2_round (shr_m mrs') (loc_of_shr_record mrs') H1) as (H2 & _).
  destruct (shr_fexp_spec prec emax (round_nearest_even (shr_m mrs') (loc_of_shr_record mrs')) e'
              loc_Exact H2) as (H3 & _ & _).
  destruct (shr_fexp prec emax _ e' loc_Exact) as [mrs'' e'']; cbn [fst snd] in *.
  destruct (shr_m mrs'') as [|p|p]; [reflexivity| |lia].
  destruct (e'' <=? emax - prec); reflexivity.
Qed.

Lemma binary_round_aux_opp sx mx ex lx :
  binary_round_aux prec emax (negb sx) mx ex lx
  = SFopp (binary_round_aux prec emax sx mx ex lx).
Proof.
  unfold binary_round_aux.
  destruct (shr_fexp prec emax mx ex lx) as [mrs' e'].
  destruct (shr_fexp prec emax _ e' loc_Exact) as [mrs'' e''].
  destruct (shr_m mrs'') as [|p|p]; try reflexivity.
  destruct (e'' <=? emax - prec); reflexivity.
Qed.

Lemma binary_round_aux_exact sx p ex :
  fexp prec emax (Zdigits2 (Z.pos p) + ex) = ex ->
  ex <= emax - prec ->
  binary_round_aux prec emax sx (Z.pos p) ex loc_Exact = S754_finite sx p ex.
Proof.
  intros Hf He. unfold binary_round_aux, shr_fexp.
  rewrite Hf, Z.sub_diag. cbn [shr shr_record_of_loc shr_m loc_of_shr_record
                                round_nearest_even].
  rewrite Hf, Z.sub_diag. cbn [shr shr_m].
  apply Z.leb_le in He. now rewrite He.
Qed.

Lemma binary_round_aux_overflow sx mx ex lx :
  0 < prec -> 3 - emax - prec <= emax - prec ->
  0 <= mx ->
  ex <= fexp prec emax (Zdigits2 mx + ex) ->
  emax < Zdigits2 mx + ex ->
  binary_round_aux prec emax sx mx ex lx = S754_infinity sx.
Proof.
  intros Hp Hmin Hm He Hd. unfold binary_round_aux.
  destruct (shr_fexp_spec prec emax mx ex lx Hm) as (H1 & E1 & D1).
  destruct (shr_fexp prec emax mx ex lx) as [mrs' e']; cbn [fst snd] in *.
  destruct (Zdigits2_round (shr_m mrs') (loc_of_shr_record mrs') H1) as (H2 & D2).
  pose proof (Zdigits2_round_ge (shr_m mrs') (loc_of_shr_record mrs') H1) as D2'.
  destruct (shr_fexp_spec prec emax (round_nearest_even (shr_m mrs') (loc_of_shr_record mrs')) e'
              loc_Exact H2) as (H3 & E3 & D3).
  destruct (shr_fexp prec emax _ e' loc_Exact) as [mrs'' e'']; cbn [fst snd] in *.
  unfold fexp, emin in *.
  destruct (shr_m mrs'') as [|p|p] eqn:Ep; cbn [Zdigits2] in D3; [lia| |lia].
  destruct (Z.leb_spec e'' (emax - prec)); [lia|reflexivity].
Qed.
End Sign.

Lemma SF2Prim_normalize m e :
  Prim2SF (SF2Prim (binary_normalize prec emax m e false))
  = binary_normalize prec emax m e false.
Proof. apply Prim2SF_SF2Prim, binary_normalize_valid. reflexivity. Qed.

Lemma float_of_int_spec z :
  float_of_int z =
  if SF_is_finite (binary_normalize prec emax z 0 false)
  then Ok (SF2Prim (binary_normalize prec emax z 0 false))
  else Raise OverflowError.
Proof.
  unfold float_of_int. now rewrite is_finite_SF, SF2Prim_normalize.
Qed.

Lemma Zdigits2_lt_pow2 p n : 0 <= n -> Z.pos p < 2 ^ n -> Zdigits2 (Z.pos p) <= n.
Proof.
  intros Hn H. rewrite Zdigits2_log2.
  apply Z.log2_lt_pow2 in H; lia.
Qed.

Lemma Zdigits2_ge_pow2 p n : 0 <= n -> 2 ^ n <= Z.pos p -> n < Zdigits2 (Z.pos p).
Proof.
  intros Hn H. rewrite Zdigits2_log2.
  apply Z.log2_le_pow2 in H; lia.
Qed.

Lemma binary_round_in_range s m e :
  e <= 0 -> Zdigits2 (Z.pos m) + e < emax ->
  SF_is_finite (binary_round prec emax s m e) = true.
Proof.
  intros He Hd. unfold binary_round.
  pose proof (shl_align_spec prec emax m e) as H.
  destruct (shl_align m e _) as [mz ez]. destruct H as (_ & H2 & H3 & _).
  cbn [Zdigits2] in *.
  apply binary_round_aux_finite; unfold prec, emax in *; cbn [Zdigits2]; lia.
Qed.

Lemma binary_round_out_of_range s m e :
  emax < Zdigits2 (Z.pos m) + e ->
  binary_round prec emax s m e = S754_infinity s.
Proof.
  intros Hd. unfold binary_round.
  pose proof (shl_align_spec prec emax m e) as H.
  destruct (shl_align m e _) as [mz ez]. destruct H as (H1 & H2 & _).
  cbn [Zdigits2] in *.
  apply binary_round_aux_overflow; unfold prec, emax in *; cbn [Zdigits2]; lia.
Qed.

Lemma float_of_int_in_range z :
  Z.abs z < 2 ^ 1023 -> exists f, float_of_int z = Ok f /\ is_finite f = true.
Proof.
  intros Hz. rewrite float_of_int_spec.
  assert (F : SF_is_finite (binary_normalize prec emax z 0 false) = true).
  { destruct z as [|p|p]; cbn [binary_normalize]; [reflexivity| |];
      apply binary_round_in_range; try lia;
      pose proof (Zdigits2_lt_pow2 p 1023 ltac:(lia) ltac:(lia));
      unfold emax; lia. }
  rewrite F. eexists; split; [reflexivity|].
  now rewrite is_finite_SF, SF2Prim_normalize.
Qed.

Lemma float_of_int_out_of_range z :
  2 ^ 1024 <= Z.abs z -> float_of_int z = Raise OverflowError.
Proof.
  intros Hz. rewrite float_of_int_spec.
  destruct z as [|p|p]; cbn [binary_normalize]; [cbn in Hz; lia| |];
    rewrite binary_round_out_of_range; try reflexivity;
    pose proof (Zdigits2_ge_pow2 p 1024 ltac:(lia) ltac:(lia));
    unfold emax; lia.
Qed.

End FloatRange.

(** ** Binary64: products, differences and small ints *)

Module FloatArith.

Import FloatFacts FloatRange Runs.

Lemma SF_sign_not_nan x s : SF_sign x = Some s -> SF_is_nan x = false.
Proof. destruct x; cbn; congruence. Qed.

(** A product has the sign of its factors' signs, or is NaN. *)
Lemma SFmul_sign x y sx sy :
  SF_sign x = Some sx -> SF_sign y = Some sy ->
  SF_is_nan (SF64mul x y) = false ->
  SF_sign (SF64mul x y) = Some (xorb sx sy).
Proof.
  unfold SF64mul.
  destruct x as [s1|s1| |s1 m1 e1], y as [s2|s2| |s2 m2 e2]; cbn [SF_sign SFmul];
    intros H1 H2 Hn; inversion H1; inversion H2; subst; try reflexivity;
    try discriminate.
  apply binary_round_aux_sign. lia.
Qed.

Lemma SFmul_finite_not_nan x y :
  SF_is_finite x = true -> SF_is_nan y = false -> SF_is_finite y = true
  -> SF_is_nan (SF64mul x y) = false.
Proof.
  unfold SF64mul.
  destruct x as [s1|s1| |s1 m1 e1], y as [s2|s2| |s2 m2 e2]; cbn [SFmul];
    try discriminate; try reflexivity; intros _ _ _.
  apply binary_round_aux_not_nan. lia.
Qed.

Lemma SFmul_opp_r x y : SF64mul x (SFopp y) = SFopp (SF64mul x y).
Proof.
  unfold SF64mul.
  destruct x as [s1|s1| |s1 m1 e1], y as [s2|s2| |s2 m2 e2]; cbn [SFmul SFopp];
    try reflexivity; try (now rewrite xorb_negb_r || now destruct s1, s2).
  rewrite <- binary_round_aux_opp. f_equal. now destruct s1, s2.
Qed.

Lemma SFmul_opp_l x y : SF64mul (SFopp x) y = SFopp (SF64mul x y).
Proof.
  unfold SF64mul.
  destruct x as [s1|s1| |s1 m1 e1], y as [s2|s2| |s2 m2 e2]; cbn [SFmul SFopp];
    try reflexivity; try (now destruct s1, s2).
  rewrite <- binary_round_aux_opp. f_equal. now destruct s1, s2.
Qed.

Lemma SFopp_involutive x : SFopp (SFopp x) = x.
Proof. destruct x as [s|s| |s m e]; cbn; now rewrite ?negb_involutive. Qed.

(** [x - 0.0] is [x]. *)
Lemma sub_zero x : (x - zero)%float = x.
Proof.
  apply Prim2SF_inj. rewrite sub_spec.
  change (Prim2SF zero) with (S754_zero false).
  destruct (Prim2SF x) as [s|s| |s m e]; try reflexivity; now destruct s.
Qed.

(** An int below [2^53] in magnitude is a double: the conversion is exact. *)
Lemma binary_round_small s m :
  Z.pos m < 2 ^ 53 ->
  exists mz ez,
    binary_round prec emax s m 0 = S754_finite s mz ez /\
    ez <= 0 /\ Z.pos mz = Z.pos m * 2 ^ (- ez).
Proof.
  intros Hm. unfold binary_round.
  pose proof (shl_align_spec prec emax m 0) as H.
  destruct (shl_align m 0 _) as [mz ez]. destruct H as (H1 & H2 & H3 & H4).
  pose proof (Zdigits2_lt_pow2 m 53 ltac:(lia) Hm) as Hd.
  cbn [Zdigits2] in *. exists mz, ez.
  assert (Hf : fexp prec emax (Z.pos (digits2_pos mz) + ez) = ez).
  { rewrite H2. unfold fexp, emin, prec, emax in *. lia. }
  rewrite binary_round_aux_exact; [|exact Hf|unfold prec, emax in *; lia].
  split; [reflexivity|]. split; [lia|].
  now rewrite H4.
Qed.

Lemma float_cmp_int_small (s : bool) (mz : positive) (ez : Z) (p : positive) :
  ez <= 0 -> Z.pos mz = Z.pos p * 2 ^ (- ez) ->
  let n : Z := if s then Z.neg mz else Z.pos mz in
  let z : Z := if s then Z.neg p else Z.pos p in
  (if 0 <=? ez then (n * 2 ^ ez ?= z) else (n ?= z * 2 ^ (- ez))) = Eq.
Proof.
  intros He Hv. cbv zeta. destruct (Z.leb_spec 0 ez).
  - replace ez with 0 in * by lia. apply Z.compare_eq_iff.
    cbn in Hv. destruct s; lia.
  - apply Z.compare_eq_iff. destruct s; lia.
Qed.

Lemma float_of_int_exact z :
  Z.abs z < 2 ^ 53 ->
  exists f, float_of_int z = Ok f /\ float_cmp_int f z = Some Eq.
Proof.
  intros Hz. rewrite float_of_int_spec. unfold float_cmp_int.
  destruct z as [|p|p]; cbn [binary_normalize].
  - eexists; split; reflexivity.
  - destruct (binary_round_small false p) as (mz & ez & E & He & Hv); [lia|].
    pose proof (binary_round_valid prec emax ltac:(reflexivity) false p 0) as V.
    rewrite E in V |- *. cbn [SF_is_finite]. eexists; split; [reflexivity|].
    rewrite (Prim2SF_SF2Prim _ V). f_equal.
    exact (float_cmp_int_small false mz ez p He Hv).
  - destruct (binary_round_small true p) as (mz & ez & E & He & Hv); [lia|].
    pose proof (binary_round_valid prec emax ltac:(reflexivity) true p 0) as V.
    rewrite E in V |- *. cbn [SF_is_finite]. eexists; split; [reflexivity|].
    rewrite (Prim2SF_SF2Prim _ V). f_equal.
    exact (float_cmp_int_small true mz ez p He Hv).
Qed.

End FloatArith.

(** ** Strings: [int] after [str] *)

Section IntStr.

Import PyStr.

Lemma int_digits_step c s acc :
  is_digit c = true ->
  int_digits (String c s) acc
  = int_digits s (10 * acc + Z.of_nat (nat_of_ascii c - 48)).
Proof. intros H. cbn [int_digits]. now rewrite H. Qed.

Lemma int_digits_acc l : forall acc,
  int_digits (NilEmpty.string_of_uint l) (Z.pos acc)
  = Some (Z.pos (Pos.of_uint_acc l acc)).
Proof.
  induction l; intros acc; cbn [NilEmpty.string_of_uint Pos.of_uint_acc];
    try reflexivity;
    rewrite int_digits_step by reflexivity; rewrite <- IHl; f_equal;
    match goal with
    | |- context [Z.of_nat ?n] =>
        let k := eval vm_compute in (Z.of_nat n) in
        change (Z.of_nat n) with k
    end; lia.
Qed.

Lemma int_digits_zero l :
  int_digits (NilEmpty.string_of_uint l) 0 = Some (Z.of_N (Pos.of_uint l)).
Proof.
  induction l; cbn [NilEmpty.string_of_uint Pos.of_uint]; try reflexivity;
    rewrite int_digits_step by reflexivity;
    [exact IHl|..]; apply int_digits_acc.
Qed.

Lemma int_unsigned_uint l :
  l <> Decimal.Nil ->
  int_unsigned (NilEmpty.string_of_uint l) = Some (Z.of_N (Pos.of_uint l)).
Proof.
  intros Hl. rewrite <- int_digits_zero.
  destruct l; try congruence; reflexivity.
Qed.

Lemma uint_starts_with_digit l :
  l <> Decimal.Nil ->
  exists c s, NilEmpty.string_of_uint l = String c s /\ is_digit c = true.
Proof.
  intros Hl. destruct l; try congruence; eexists _, _; split; reflexivity.
Qed.

Lemma int_literal_digits c s :
  is_digit c = true -> int_literal (String c s) = int_unsigned (String c s).
Proof.
  intros H. unfold int_literal.
  assert (Hs : is_space c = false).
  { destruct c as [[] [] [] [] [] [] [] []]; try discriminate; reflexivity. }
  cbn [lstrip]. rewrite Hs.
  destruct c as [[] [] [] [] [] [] [] []]; try discriminate; reflexivity.
Qed.

Lemma NilZero_uint l :
  l <> Decimal.Nil -> NilZero.string_of_uint l = NilEmpty.string_of_uint l.
Proof. destruct l; [congruence|reflexivity..]. Qed.

Lemma int_literal_pos p : int_literal (str_of_int (Z.pos p)) = Some (Z.pos p).
Proof.
  unfold str_of_int. cbn [Z.to_int NilZero.string_of_int].
  pose proof (DecimalPos.Unsigned.to_uint_nonnil p) as Hn.
  rewrite (NilZero_uint _ Hn).
  destruct (uint_starts_with_digit _ Hn) as (c & s & Es & Hc).
  rewrite Es, (int_literal_digits c s Hc), <- Es, (int_unsigned_uint _ Hn).
  now rewrite DecimalPos.Unsigned.of_to.
Qed.

(** [int(str(z))] is [z]. *)
Lemma int_literal_str_of_int z : int_literal (str_of_int z) = Some z.
Proof.
  destruct z as [|p|p]; [reflexivity|apply int_literal_pos|].
  unfold str_of_int. cbn [Z.to_int NilZero.string_of_int].
  pose proof (DecimalPos.Unsigned.to_uint_nonnil p) as Hn.
  rewrite (NilZero_uint _ Hn). unfold int_literal. cbn [lstrip is_space]. 
  change (is_space "-") with false. cbv iota.
  rewrite (int_unsigned_uint _ Hn), DecimalPos.Unsigned.of_to. reflexivity.
Qed.

Lemma dash_free_uint l : dash_free (NilEmpty.string_of_uint l) = true.
Proof. induction l; cbn [NilEmpty.string_of_uint dash_free]; auto. Qed.

Lemma dash_free_str_of_int z : 0 <= z -> dash_free (str_of_int z) = true.
Proof.
  destruct z as [|p|p]; [reflexivity| |lia]. intros _.
  unfold str_of_int. cbn [Z.to_int NilZero.string_of_int].
  rewrite (NilZero_uint _ (DecimalPos.Unsigned.to_uint_nonnil p)). apply dash_free_uint.
Qed.

Lemma int_digits_nonneg n : forall s acc y,
  (String.length s <= n)%nat -> 0 <= acc ->
  int_digits s acc = Some y -> 0 <= y.
Proof.
  induction n as [|n IH]; intros s acc y Hl Ha.
  - destruct s; [|cbn in Hl; lia]. cbn. intros [= <-]. exact Ha.
  - destruct s as [|c s]; [cbn; intros [= <-]; exact Ha|].
    cbn [String.length] in Hl. cbn [int_digits].
    destruct (is_digit c).
    + apply IH; lia.
    + destruct (Ascii.eqb c "_").
      * destruct s as [|d s]; [discriminate|].
        cbn [String.length] in Hl.
        destruct (is_digit d); [|discriminate]. apply IH; lia.
      * destruct (is_space c); [|discriminate].
        destruct (lstrip s); [|discriminate]. intros [= <-]. exact Ha.
Qed.

Lemma int_unsigned_nonneg s y : int_unsigned s = Some y -> 0 <= y.
Proof.
  destruct s as [|c s]; [discriminate|]. cbn [int_unsigned].
  destruct (is_digit c); [|discriminate].
  apply (int_digits_nonneg (String.length s)); lia.
Qed.

Lemma dash_free_lstrip s : dash_free s = true -> dash_free (lstrip s) = true.
Proof.
  induction s as [|c s IH]; [reflexivity|]. cbn [lstrip dash_free].
  intros H. destruct (is_space c); [|exact H].
  apply andb_true_iff in H. now apply IH.
Qed.

(** A field without a dash never parses to a negative int. *)
Lemma int_literal_dash_free_nonneg s y :
  dash_free s = true -> int_literal s = Some y -> 0 <= y.
Proof.
  intros H. apply dash_free_lstrip in H. unfold int_literal.
  destruct (lstrip s) as [|c t]; [discriminate|].
  cbn [dash_free] in H. apply andb_true_iff in H. destruct H as [Hc _].
  destruct c as [[] [] [] [] [] [] [] []]; try discriminate Hc;
    apply int_unsigned_nonneg.
Qed.

Lemma py_int_literal s y : py_int s = Some y -> int_literal s = Some y.
Proof.
  unfold py_int. destruct (max_str_digits <? count_digits s); [discriminate|auto].
Qed.

Lemma py_int_dash_free_nonneg s y :
  dash_free s = true -> py_int s = Some y -> 0 <= y.
Proof.
  intros H Hy. apply (int_literal_dash_free_nonneg s y H), py_int_literal, Hy.
Qed.

Lemma count_digits_le_length s : count_digits s <= Z.of_nat (String.length s).
Proof.
  induction s as [|c s IH]; [reflexivity|].
  cbn [count_digits String.length]. destruct (is_digit c); lia.
Qed.

(** [int(str(z))] is [z] as long as [str(z)] stays within the digit limit. *)
Lemma py_int_str_of_int z :
  Z.of_nat (String.length (str_of_int z)) <= max_str_digits ->
  py_int (str_of_int z) = Some z.
Proof.
  intros H. unfold py_int.
  pose proof (count_digits_le_length (str_of_int z)).
  destruct (Z.ltb_spec max_str_digits (count_digits (str_of_int z))); [lia|].
  apply int_literal_str_of_int.
Qed.

Lemma is_ascii_uint l : is_ascii (NilEmpty.string_of_uint l) = true.
Proof. induction l; cbn [NilEmpty.string_of_uint is_ascii]; auto. Qed.

Lemma is_ascii_str_of_int z : is_ascii (str_of_int z) = true.
Proof.
  destruct z as [|p|p]; [reflexivity| |];
    unfold str_of_int; cbn [Z.to_int NilZero.string_of_int];
    rewrite (NilZero_uint _ (DecimalPos.Unsigned.to_uint_nonnil p));
    [|cbn [is_ascii]]; now rewrite is_ascii_uint.
Qed.

End IntStr.

(** ** Accounts *)

Section AccountRuns.

Import Bank Runs.

Lemma deposit_step amount acct :
  deposit amount acct
  = ({| owner := owner acct; __balance := __balance acct + Z.max 0 amount |}, Ok tt).
Proof.
  unfold deposit. destruct acct as [o b]. cbn [owner __balance].
  destruct (Z.gtb_spec amount 0); do 2 f_equal; lia.
Qed.

Lemma deposited_cons amount rest :
  deposited (amount :: rest) = Z.max 0 amount + deposited rest.
Proof. reflexivity. Qed.

Lemma deposit_all_closed amounts : forall acct,
  deposit_all amounts acct
  = ({| owner := owner acct; __balance := __balance acct + deposited amounts |}, Ok tt).
Proof.
  induction amounts as [|amount rest IH]; intros [o b]; cbn [deposit_all].
  - unfold ret. cbn [owner __balance deposited fold_right]. do 2 f_equal. lia.
  - unfold seq. rewrite deposit_step, IH, deposited_cons.
    cbn [owner __balance]. do 2 f_equal. lia.
Qed.

Lemma deposited_nonneg amounts : 0 <= deposited amounts.
Proof.
  induction amounts as [|a rest IH]; [cbn; lia|]. rewrite deposited_cons. lia.
Qed.

Lemma deposited_perm l l' :
  Permutation.Permutation l l' -> deposited l = deposited l'.
Proof.
  induction 1; rewrite ?deposited_cons; lia.
Qed.

(** X1.  Any number of deposits made in turn on an account all return
    normally, leave the owner as it was, and leave the balance at the
    opening balance plus the sum of the positive amounts; so the balance
    never goes down, whatever is deposited. *)
Theorem deposits_add_up (amounts : list Z) (acct : BankAccount) :
  deposit_all amounts acct
  = ({| owner := owner acct; __balance := __balance acct + deposited amounts |},
     Ok tt) /\
  __balance acct <= __balance (fst (deposit_all amounts acct)).
Proof.
  rewrite deposit_all_closed. split; [reflexivity|].
  cbn [fst __balance]. pose proof (deposited_nonneg amounts). lia.
Qed.

(** X2.  The order of deposits does not matter: the same amounts deposited
    in any other order leave the same account. *)
Theorem deposits_commute (amounts amounts' : list Z) (acct : BankAccount) :
  Permutation.Permutation amounts amounts' ->
  deposit_all amounts acct = deposit_all amounts' acct.
Proof.
  intros H. rewrite !deposit_all_closed. now rewrite (deposited_perm _ _ H).
Qed.

Lemma deposits_commute_witness :
  deposit_all [500; -3; 20] (Bank.new "Alice" (Some 1000))
  = deposit_all [20; 500; -3] (Bank.new "Alice" (Some 1000)).
Proof.
  apply deposits_commute.
  apply Permutation.perm_trans with [500; 20; -3].
  - apply Permutation.perm_skip, Permutation.perm_swap.
  - apply Permutation.perm_swap.
Defined.

End AccountRuns.

(** ** Vehicles: runs of calls *)

Section VehicleRuns.

Import Vehicles Runs FloatFacts FloatRange FloatArith.

Lemma after_all_cons c cs v : after_all (c :: cs) v = after_all cs (after c v).
Proof. reflexivity. Qed.

Lemma driven_total_cons c cs :
  driven_total (c :: cs)
  = match c with Call_drive d => Z.max 0 d | _ => 0 end + driven_total cs.
Proof. destruct c; reflexivity. Qed.

(** What one [drive] leaves alone. *)
Lemma drive_frame d v :
  let v' := fst (drive d v) in
  class_of v' = class_of v /\
  make (base v') = make (base v) /\
  model (base v') = model (base v) /\
  year (base v') = year (base v) /\
  fuel_of v' = fuel_of v.
Proof.
  assert (F : forall a, make (driven d a) = make a /\
                        model (driven d a) = model a /\
                        year (driven d a) = year a).
  { intros a. unfold driven. destruct (d >? 0); repeat split. }
  cbv zeta. destruct v as [a|a f|a b].
  - rewrite drive_Vehicle. cbn. split; [reflexivity|]. destruct (F a) as (?&?&?); auto.
  - rewrite drive_Car. cbn. split; [reflexivity|]. destruct (F a) as (?&?&?); auto.
  - rewrite drive_ElectricScooter.
    destruct (py_mul (PyInt d) (PyFloat tenth)) as [used|e];
      [destruct (py_sub b used) as [x|e]|];
      cbn; (split; [reflexivity|]); destruct (F a) as (?&?&?); auto.
Qed.

(** X3.  No run of calls changes what a vehicle is: after any calls, whether
    they returned or raised, the object has the class, make, model and year
    it had, and a Car the fuel capacity it had. *)
Theorem calls_keep_identity (cs : list call) (v : vehicle) :
  class_of (after_all cs v) = class_of v /\
  make (base (after_all cs v)) = make (base v) /\
  model (base (after_all cs v)) = model (base v) /\
  year (base (after_all cs v)) = year (base v) /\
  fuel_of (after_all cs v) = fuel_of v.
Proof.
  revert v. induction cs as [|c cs IH]; intros v; [repeat split|].
  rewrite after_all_cons.
  destruct (IH (after c v)) as (H1 & H2 & H3 & H4 & H5).
  rewrite H1, H2, H3, H4, H5. clear.
  destruct c; cbn [after]; try (repeat split; reflexivity).
  apply drive_frame.
Qed.

(** X4.  The mileage is the odometer of the positive distances: after any
    run of calls on a Vehicle, a Car or an ElectricScooter it is the mileage
    before plus the sum of the positive distances driven, counting the drives
    that raised, and nothing for distances that are zero or negative. *)
Theorem mileage_is_total (cs : list call) (v : vehicle) :
  mileage (after_all cs v) = mileage v + driven_total cs.
Proof.
  revert v. induction cs as [|c cs IH]; intros v.
  - cbn. lia.
  - rewrite after_all_cons, IH, driven_total_cons.
    destruct c; cbn [after]; try lia. rewrite mileage_drive. lia.
Qed.

(** One completed or failed [drive] keeps a level that is a number and not
    negative that way. *)
Lemma level_nonneg_drive d v : level_nonneg v -> level_nonneg (fst (drive d v)).
Proof.
  intros (a & b & -> & Hb & Hn). rewrite drive_ElectricScooter.
  destruct (py_mul (PyInt d) (PyFloat tenth)) as [used|e] eqn:Eu;
    [|exists (driven d a), b; auto].
  destruct (used_finite d used Eu) as (u & -> & Hu).
  destruct (py_sub b (PyFloat u)) as [x|e] eqn:Ex;
    [|exists (driven d a), b; auto].
  destruct (level_not_nan b u x Hb Hu Ex) as (y & -> & Hy).
  destruct (clamp_is_max y Hy) as [_ H2]. cbn [fst].
  eexists _, _. split; [reflexivity|]. split; [|exact H2].
  destruct (py_lt (PyFloat y) (PyInt 0)); [reflexivity|exact Hy].
Qed.

Lemma level_nonneg_after_all cs : forall v,
  level_nonneg v -> level_nonneg (after_all cs v).
Proof.
  induction cs as [|c cs IH]; intros v Hv; [exact Hv|].
  rewrite after_all_cons. apply IH.
  destruct c; cbn [after]; auto using level_nonneg_drive.
Qed.

(** A [drive] that returns leaves the level clamped. *)
Lemma level_nonneg_returned d v :
  scooter_ok v -> snd (drive d v) = Ok tt -> level_nonneg (fst (drive d v)).
Proof.
  intros (a & b & -> & Hb). rewrite drive_ElectricScooter.
  destruct (py_mul (PyInt d) (PyFloat tenth)) as [used|e] eqn:Eu;
    [|discriminate].
  destruct (used_finite d used Eu) as (u & -> & Hu).
  destruct (py_sub b (PyFloat u)) as [x|e] eqn:Ex; [|discriminate].
  destruct (level_not_nan b u x Hb Hu Ex) as (y & -> & Hy).
  destruct (clamp_is_max y Hy) as [_ H2]. cbn [fst]. intros _.
  eexists _, _. split; [reflexivity|]. split; [|exact H2].
  destruct (py_lt (PyFloat y) (PyInt 0)); [reflexivity|exact Hy].
Qed.

(** X5.  An ElectricScooter whose battery level is a number, not NaN,
    keeps a level that is a number through every call.  That level is never
    negative: from the start on when it starts out not negative, and in any
    case from the first [drive] that returns on, through every later call,
    including drives that raise. *)
Theorem battery_stays_nonnegative (a : attrs) (b : pynum) (cs1 : list call) :
  is_nan_num b = false ->
  let s1 := after_all cs1 (ElectricScooter a b) in
  scooter_ok s1 /\
  (py_lt b (PyInt 0) = false -> level_nonneg s1) /\
  (forall d cs2,
      snd (drive d s1) = Ok tt ->
      level_nonneg (after_all cs2 (fst (drive d s1)))).
Proof.
  intros Hb. cbv zeta.
  assert (H : scooter_ok (after_all cs1 (ElectricScooter a b)))
    by (apply scooter_ok_after_all; exists a, b; auto).
  split; [exact H|]. split.
  - intros H0. apply level_nonneg_after_all. exists a, b. auto.
  - intros d cs2 Hr. apply level_nonneg_after_all, level_nonneg_returned; auto.
Qed.

Lemma battery_stays_nonnegative_witness :
  level_nonneg (after_all [Call_drive 1000; Call_drive (-5); Call_drive (10 ^ 400)]
                  (new_ElectricScooter "Xiaomi" "M365" 2022 85)) /\
  level_nonneg (after_all [Call_drive (-20)]
                  (fst (drive 3 (new_ElectricScooter "Xiaomi" "M365" 2022 (-7))))).
Proof.
  split.
  - apply (proj1 (proj2 (battery_stays_nonnegative
                           (Vehicle_init "Xiaomi" "M365" 2022) (PyInt 85) _ eq_refl))).
    reflexivity.
  - apply (proj2 (proj2 (battery_stays_nonnegative
                           (Vehicle_init "Xiaomi" "M365" 2022) (PyInt (-7)) []
                           eq_refl))).
    reflexivity.
Defined.

End VehicleRuns.

(** ** Vehicles: when [drive] returns *)

Section DriveOutcome.

Import Vehicles Runs FloatFacts FloatRange FloatArith.

Lemma level_in_range_drive d v :
  level_in_range v -> level_in_range (fst (drive d v)).
Proof.
  intros (a & b & -> & Hb). rewrite drive_ElectricScooter.
  destruct (py_mul (PyInt d) (PyFloat tenth)) as [used|e] eqn:Eu;
    [|exists (driven d a), b; auto].
  destruct (used_finite d used Eu) as (u & -> & Hu).
  destruct (py_sub b (PyFloat u)) as [x|e] eqn:Ex;
    [|exists (driven d a), b; auto].
  assert (exists y, x = PyFloat y) as (y & ->).
  { destruct b; cbn [py_sub] in Ex;
      match type of Ex with
      | (x0 <- ?r ;; _) = _ => destruct r; cbn [bind] in Ex; inversion Ex; eauto
      end. }
  cbn [fst]. destruct (py_lt (PyFloat y) (PyInt 0));
    eexists _, _; (split; [reflexivity|]); [reflexivity|exact I].
Qed.

Lemma level_in_range_after_all cs : forall v,
  level_in_range v -> level_in_range (after_all cs v).
Proof.
  induction cs as [|c cs IH]; intros v Hv; [exact Hv|].
  rewrite after_all_cons. apply IH.
  destruct c; cbn [after]; auto using level_in_range_drive.
Qed.

Lemma drive_returns_in_range d v :
  level_in_range v -> Z.abs d < 2 ^ 1023 -> snd (drive d v) = Ok tt.
Proof.
  intros (a & b & -> & Hb) Hd. rewrite drive_ElectricScooter.
  cbn [py_mul as_float].
  destruct (float_of_int_in_range d Hd) as (t & -> & _). cbn [bind].
  destruct b as [z|g]; cbn [py_sub as_float].
  - destruct (float_of_int_in_range z Hb) as (f & -> & _). reflexivity.
  - reflexivity.
Qed.

(** X6.  [drive] returns normally on every Vehicle and every Car, for every
    distance.  On an ElectricScooter built with a level below [2^1023] in
    magnitude it returns normally, after any earlier calls, for every distance
    below [2^1023] in magnitude; for a distance of magnitude [2^1024] or more
    it raises OverflowError on every scooter. *)
Theorem drive_outcome :
  (forall a d, snd (drive d (Vehicle a)) = Ok tt) /\
  (forall a f d, snd (drive d (Car a f)) = Ok tt) /\
  (forall make model year b0 cs d,
      Z.abs b0 < 2 ^ 1023 -> Z.abs d < 2 ^ 1023 ->
      snd (drive d (after_all cs (new_ElectricScooter make model year b0))) = Ok tt) /\
  (forall a b d,
      2 ^ 1024 <= Z.abs d ->
      snd (drive d (ElectricScooter a b)) = Raise OverflowError).
Proof.
  split; [|split; [|split]].
  - intros. now rewrite drive_Vehicle.
  - intros. now rewrite drive_Car.
  - intros mk md y b0 cs d Hb Hd. apply drive_returns_in_range; [|exact Hd].
    apply level_in_range_after_all. eexists _, _. split; [reflexivity|exact Hb].
  - intros a b d Hd. rewrite drive_ElectricScooter. cbn [py_mul as_float].
    now rewrite (float_of_int_out_of_range d Hd).
Qed.

Lemma drive_outcome_witness :
  snd (drive (2 ^ 1000)
         (after_all [Call_drive (- (2 ^ 1020)); Call_get_info]
            (new_ElectricScooter "Xiaomi" "M365" 2022 85))) = Ok tt /\
  snd (drive (- (2 ^ 1024)) (new_ElectricScooter "Xiaomi" "M365" 2022 85))
  = Raise OverflowError.
Proof.
  split.
  - apply (proj1 (proj2 (proj2 drive_outcome))); vm_compute; reflexivity.
  - apply (proj2 (proj2 (proj2 drive_outcome))). vm_compute. discriminate.
Defined.

Lemma float_cmp_int_sign f z :
  float_cmp_int f z = Some Eq -> float_cmp_int f 0 = Some (z ?= 0).
Proof.
  rewrite float_cmp_int_0. unfold float_cmp_int.
  destruct (Prim2SF f) as [s|s| |s m e]; try discriminate.
  - intros [= H]. destruct z; [reflexivity|discriminate..].
  - destruct s; discriminate.
  - intros [= H]. f_equal. symmetry.
    destruct (Z.leb_spec 0 e) as [He|He]; apply Z.compare_eq_iff in H.
    + pose proof (Z.pow_pos_nonneg 2 e ltac:(lia) He).
      destruct s; [apply Z.compare_lt_iff|apply Z.compare_gt_iff]; nia.
    + pose proof (Z.pow_pos_nonneg 2 (- e) ltac:(lia) ltac:(lia)).
      destruct s; [apply Z.compare_lt_iff|apply Z.compare_gt_iff]; nia.
Qed.

Lemma driven_zero a : driven 0 a = a.
Proof. reflexivity. Qed.

(** X7.  [drive(0)] does not move the mileage and does not use the
    battery.  A float level is left as the very same float unless it was
    below zero, which is clamped to 0.  An int level below [2^53] in magnitude
    is turned into the float equal to it when it is not negative, and into 0
    when it is. *)
Theorem drive_zero :
  (forall a x,
      drive 0 (ElectricScooter a (PyFloat x))
      = (ElectricScooter a (if py_lt (PyFloat x) (PyInt 0) then PyInt 0 else PyFloat x),
         Ok tt)) /\
  (forall a z,
      0 <= z < 2 ^ 53 ->
      exists f, drive 0 (ElectricScooter a (PyInt z))
                = (ElectricScooter a (PyFloat f), Ok tt) /\
                py_eq (PyFloat f) (PyInt z) = true) /\
  (forall a z,
      - 2 ^ 53 < z < 0 ->
      drive 0 (ElectricScooter a (PyInt z)) = (ElectricScooter a (PyInt 0), Ok tt)).
Proof.
  assert (U : py_mul (PyInt 0) (PyFloat tenth) = Ok (PyFloat PrimFloat.zero))
    by reflexivity.
  split; [|split].
  - intros a x. rewrite drive_ElectricScooter, U, driven_zero.
    cbn [py_sub as_float bind]. now rewrite sub_zero.
  - intros a z Hz. rewrite drive_ElectricScooter, U, driven_zero.
    destruct (float_of_int_exact z) as (f & Ef & Hc); [lia|].
    cbn [py_sub as_float]. rewrite Ef. cbn [bind]. rewrite sub_zero.
    exists f. unfold py_lt, py_eq. cbn [py_compare].
    rewrite (float_cmp_int_sign f z Hc), Hc.
    destruct (Z.compare_spec z 0); try lia; auto.
  - intros a z Hz. rewrite drive_ElectricScooter, U, driven_zero.
    destruct (float_of_int_exact z) as (f & Ef & Hc); [lia|].
    cbn [py_sub as_float]. rewrite Ef. cbn [bind]. rewrite sub_zero.
    unfold py_lt. cbn [py_compare].
    rewrite (float_cmp_int_sign f z Hc).
    destruct (Z.compare_spec z 0); try lia; auto.
Qed.

Lemma drive_zero_witness :
  exists f,
    drive 0 (new_ElectricScooter "Xiaomi" "M365" 2022 85)
    = (ElectricScooter (Vehicle_init "Xiaomi" "M365" 2022) (PyFloat f), Ok tt) /\
    py_eq (PyFloat f) (PyInt 85) = true.
Proof.
  apply (proj1 (proj2 drive_zero)). split; [lia|reflexivity].
Defined.

End DriveOutcome.

(** ** [from_string] *)

Section FromString.

Import Vehicles PyStr.

(** X8.  Whatever [from_string] returns, for whatever [int] accepts, is a
    plain Vehicle with mileage 0, built from three dash-free fields, with the
    year [int] read from the third, and it was called through [Vehicle].
    When the third field is ASCII that year is not negative: a year written
    with a minus sign is cut by the split. *)
Theorem from_string_result
  (int_ : string -> option Z) (cls : vehicle_class) (s : string) (v : vehicle) :
  from_string_with int_ cls s = Ok v ->
  cls = VehicleC /\
  exists make model ys y,
    three_fields s make model ys /\ int_ ys = Some y /\
    v = Vehicle {| make := make; model := model; year := y; _mileage := 0 |} /\
    (int_on_ascii int_ -> is_ascii ys = true -> 0 <= y).
Proof.
  unfold from_string_with.
  destruct (split "-" s) as [|f1 [|f2 [|f3 [|f4 fs]]]] eqn:E; try discriminate.
  apply three_fields_split in E.
  destruct (int_ f3) as [y|] eqn:Ey; [|discriminate].
  destruct cls; cbn [call_class3]; try discriminate.
  intros [= <-]. split; [reflexivity|]. exists f1, f2, f3, y.
  repeat split; try apply E; auto.
  intros Hi Ha. rewrite (Hi f3 Ha) in Ey.
  destruct E as (_ & _ & H3 & _). exact (py_int_dash_free_nonneg f3 y H3 Ey).
Qed.

Lemma from_string_result_witness :
  VehicleC = VehicleC /\
  exists make model ys y,
    three_fields "Honda-Civic-2018" make model ys /\ py_int ys = Some y /\
    new_Vehicle "Honda" "Civic" 2018
    = Vehicle {| make := make; model := model; year := y; _mileage := 0 |} /\
    (int_on_ascii py_int -> is_ascii ys = true -> 0 <= y).
Proof.
  apply (from_string_result py_int VehicleC "Honda-Civic-2018"). reflexivity.
Defined.

(** X9.  Called through [Car] or [ElectricScooter], [from_string] never
    returns: it raises TypeError exactly on the strings that
    [Vehicle.from_string] accepts, because the subclass constructors need a
    fourth argument, and the same ValueError as [Vehicle.from_string] on the
    others. *)
Theorem from_string_through_subclasses (s : string) :
  let through_Vehicle := from_string VehicleC s in
  let expected :=
    match through_Vehicle with
    | Ok _ => Raise TypeError
    | Raise e => Raise e
    end in
  from_string CarC s = expected /\
  from_string ElectricScooterC s = expected /\
  (forall e, through_Vehicle = Raise e -> e = ValueError).
Proof.
  cbv zeta. unfold from_string.
  destruct (split "-" s) as [|f1 [|f2 [|f3 [|f4 fs]]]];
    try (repeat split; congruence).
  destruct (py_int f3); cbn [call_class3]; repeat split; congruence.
Qed.

(** X10.  [from_string] undoes the joining of make, model and [str(year)]
    with dashes: when make and model hold no dash, the year is not negative
    and [str(year)] stays within the interpreter's digit limit, the joined
    string gives back the Vehicle with exactly these three values and mileage
    0; with a negative year the joined string raises ValueError.  [int_] is
    the built-in [int], known on ASCII strings. *)
Theorem from_string_round_trip
  (int_ : string -> option Z) (make model : string) (year : Z) :
  int_on_ascii int_ ->
  dash_free make = true -> dash_free model = true ->
  Z.of_nat (String.length (str_of_int year)) <= max_str_digits ->
  (0 <= year ->
   from_string_with int_ VehicleC (join "-" [make; model; str_of_int year])
   = Ok (new_Vehicle make model year)) /\
  (year < 0 ->
   from_string_with int_ VehicleC (join "-" [make; model; str_of_int year])
   = Raise ValueError).
Proof.
  intros Hi Hmk Hmd Hlen. split; intros Hy.
  - assert (H : three_fields (join "-" [make; model; str_of_int year])
                  make model (str_of_int year)).
    { repeat split; auto using dash_free_str_of_int. }
    apply three_fields_split in H. unfold from_string_with.
    rewrite H, (Hi _ (is_ascii_str_of_int year)), (py_int_str_of_int year Hlen).
    reflexivity.
  - destruct year as [|p|p]; try lia.
    unfold from_string_with, str_of_int.
    cbn [Z.to_int NilZero.string_of_int join].
    rewrite (split_app make _ Hmk), (split_app model _ Hmd).
    cbn [split Ascii.eqb Bool.eqb].
    destruct (split "-" (NilZero.string_of_uint (Pos.to_uint p))) eqn:E;
      [now apply split_nonempty in E|reflexivity].
Qed.

Lemma from_string_round_trip_witness :
  int_on_ascii py_int /\
  from_string_with py_int VehicleC (join "-" ["Toyota"; "Corolla"; str_of_int 2020])
  = Ok (new_Vehicle "Toyota" "Corolla" 2020) /\
  from_string_with py_int VehicleC (join "-" ["Toyota"; "Corolla"; str_of_int (-44)])
  = Raise ValueError.
Proof.
  assert (H : int_on_ascii py_int) by (intros s _; reflexivity).
  split; [exact H|]. split.
  - apply (proj1 (from_string_round_trip py_int "Toyota" "Corolla" 2020
                    H eq_refl eq_refl ltac:(vm_compute; discriminate))).
    lia.
  - apply (proj2 (from_string_round_trip py_int "Toyota" "Corolla" (-44)
                    H eq_refl eq_refl ltac:(vm_compute; discriminate))).
    lia.
Defined.

End FromString.

(** ** Reports *)

Section Reports.

Import Vehicles.

Variable float_repr : float -> string.

Lemma report_nil out : print_vehicle_report float_repr [] out = (out, Ok tt).
Proof. reflexivity. Qed.

(** X12.  Reporting a list cut in two is reporting the first part and then,
    if that returned, the second part on the output it left; if the first
    part raised, that is the outcome and the second part is not looked at.
    In every case what was printed before stays at the front of the output. *)
Theorem report_app (xs ys : list element) (out : stdout) :
  print_vehicle_report float_repr (xs ++ ys)%list out
  = match print_vehicle_report float_repr xs out with
    | (out', Ok _) => print_vehicle_report float_repr ys out'
    | (out', Raise e) => (out', Raise e)
    end /\
  exists more,
    fst (print_vehicle_report float_repr (xs ++ ys)%list out) = (out ++ more)%list.
Proof.
  revert out. induction xs as [|x xs IH]; intros out; cbn [app].
  - rewrite report_nil. split; [reflexivity|].
    revert out. induction ys as [|y ys IHy]; intros out.
    + exists []. rewrite report_nil. now rewrite app_nil_r.
    + destruct (call_get_info float_repr y) as [line|e] eqn:Ey.
      * rewrite (report_step _ _ line) by exact Ey.
        destruct (IHy (out ++ [line])%list) as [more Hm].
        exists (line :: more). rewrite Hm, <- app_assoc. reflexivity.
      * rewrite (report_stop _ _ e) by exact Ey. exists []. now rewrite app_nil_r.
  - destruct (call_get_info float_repr x) as [line|e] eqn:Ex.
    + rewrite !(report_step _ _ line) by exact Ex.
      destruct (IH (out ++ [line])%list) as [H1 [more Hm]].
      split; [exact H1|]. exists (line :: more).
      rewrite Hm, <- app_assoc. reflexivity.
    + rewrite !(report_stop _ _ e) by exact Ex. split; [reflexivity|].
      exists []. now rewrite app_nil_r.
Qed.

End Reports.

(** ** Animals *)

Section AnimalFacts.

Import Animals.

Lemma speak_each_step a line rest out :
  speak a = Ok line ->
  speak_each (a :: rest) out = speak_each rest (out ++ [line])%list.
Proof.
  intros H. cbn [speak_each]. unfold seq, lift, Vehicles.print. now rewrite H.
Qed.

Lemma speak_not_dog a : is_dog a = false -> exists line, speak a = Ok line.
Proof. destruct a; [discriminate|eexists; reflexivity..]. Qed.

(** X13.  The loop of section 6 stops at the first Dog: a Dog has [bark]
    but no [speak], so the loop prints the [speak] line of every animal
    before the first Dog, raises AttributeError there and prints nothing of
    what follows; it runs to the end exactly on lists without a Dog.  On the
    lecture's own list, a Dog and then a Cat, it prints nothing. *)
Theorem speak_each_stops_at_dog :
  (forall before name breed later out,
      existsb is_dog before = false ->
      exists lines,
        Forall2 (fun a line => speak a = Ok line) before lines /\
        speak_each (before ++ Dog name breed :: later)%list out
        = ((out ++ lines)%list, Raise AttributeError)) /\
  (forall animals out,
      existsb is_dog animals = false ->
      exists lines,
        Forall2 (fun a line => speak a = Ok line) animals lines /\
        speak_each animals out = ((out ++ lines)%list, Ok tt)) /\
  speak_each [Dog "Rex" "Bulldog"; Cat "Whiskers"] [] = ([], Raise AttributeError).
Proof.
  split; [|split; [|reflexivity]].
  - intros before name breed later out H. revert out.
    induction before as [|a before IH]; intros out.
    + exists []. split; [constructor|]. cbn. now rewrite app_nil_r.
    + cbn [existsb] in H. apply orb_false_iff in H. destruct H as [Ha Hb].
      destruct (speak_not_dog a Ha) as [line Hl].
      destruct (IH Hb (out ++ [line])%list) as (lines & Hf & Hr).
      exists (line :: lines). split; [now constructor|].
      cbn [app]. rewrite (speak_each_step a line) by exact Hl.
      rewrite Hr, <- app_assoc. reflexivity.
  - intros animals out H. revert out.
    induction animals as [|a animals IH]; intros out.
    + exists []. split; [constructor|]. cbn. unfold ret. now rewrite app_nil_r.
    + cbn [existsb] in H. apply orb_false_iff in H. destruct H as [Ha Hb].
      destruct (speak_not_dog a Ha) as [line Hl].
      destruct (IH Hb (out ++ [line])%list) as (lines & Hf & Hr).
      exists (line :: lines). split; [now constructor|].
      rewrite (speak_each_step a line) by exact Hl.
      rewrite Hr, <- app_assoc. reflexivity.
Qed.

Lemma speak_each_stops_at_dog_witness :
  exists lines,
    Forall2 (fun a line => speak a = Ok line) [Cat "Whiskers"; Animal "Generic"] lines /\
    speak_each ([Cat "Whiskers"; Animal "Generic"]
                  ++ Dog "Rex" "Bulldog" :: [Cat "Tom"])%list []
    = (([] ++ lines)%list, Raise AttributeError).
Proof.
  apply (proj1 speak_each_stops_at_dog). reflexivity.
Defined.

End AnimalFacts.

(** ** The first [Circle] *)

Section CircleFacts.

Import Circles Runs FloatFacts FloatRange FloatArith.

Lemma halve_spec d :
  halve d =
  if SF_is_finite (binary_normalize prec emax d (-1) false)
  then Ok (SF2Prim (binary_normalize prec emax d (-1) false))
  else Raise OverflowError.
Proof.
  unfold halve. now rewrite is_finite_SF, SF2Prim_normalize.
Qed.

Lemma halve_finite d r : halve d = Ok r -> is_finite r = true.
Proof.
  unfold halve.
  destruct (is_finite (SF2Prim (binary_normalize prec emax d (-1) false))) eqn:E;
    intros H; inversion H; subst; exact E.
Qed.

Lemma sign_false_not_negative a :
  SF_sign (Prim2SF a) = Some false ->
  is_nan a = false /\ py_lt (PyFloat a) (PyInt 0) = false.
Proof.
  intros H. split.
  - rewrite is_nan_SF. exact (SF_sign_not_nan _ _ H).
  - unfold py_lt. cbn [py_compare]. rewrite float_cmp_int_0.
    destruct (Prim2SF a) as [s|s| |s m e]; cbn [SF_sign] in H;
      inversion H; subst; reflexivity.
Qed.

(** [pi * r * r] has the sign bit clear whenever [r] is a number. *)
Lemma square_sign R :
  SF_is_nan R = false ->
  SF_sign (SF64mul (SF64mul (Prim2SF pi) R) R) = Some false.
Proof.
  change (Prim2SF pi) with (S754_finite false 7074254294673575 (-51)).
  destruct R as [s|s| |s m e]; try discriminate; intros _.
  - cbn. now destruct s.
  - cbn. now destruct s.
  - assert (Hx : SF_sign (SF64mul (S754_finite false 7074254294673575 (-51))
                            (S754_finite s m e)) = Some s).
    { unfold SF64mul, SFmul. rewrite binary_round_aux_sign by lia.
      now destruct s. }
    destruct (SF64mul (S754_finite false 7074254294673575 (-51))
                (S754_finite s m e)) as [sx|sx| |sx mx ex];
      cbn [SF_sign] in Hx; inversion Hx; subst.
    + cbn. now destruct s.
    + cbn. now destruct s.
    + unfold SF64mul, SFmul. rewrite binary_round_aux_sign by lia.
      now destruct s.
Qed.

Lemma area_float r :
  area (Circle_init (PyFloat r)) = Ok (PyFloat (pi * r * r)%float).
Proof. reflexivity. Qed.

Lemma area_int z :
  area (Circle_init (PyInt z))
  = (t <- float_of_int z ;; Ok (PyFloat (pi * t * t)%float)).
Proof.
  unfold area. cbn [radius Circle_init py_mul as_float].
  destruct (float_of_int z) as [t|e] eqn:E; cbn [bind py_mul as_float];
    rewrite ?E; reflexivity.
Qed.

Lemma area_value_ok r :
  is_nan r = false ->
  is_nan (pi * r * r)%float = false /\
  py_lt (PyFloat (pi * r * r)%float) (PyInt 0) = false.
Proof.
  intros Hr. apply sign_false_not_negative.
  rewrite !mul_spec. apply square_sign. now rewrite <- is_nan_SF.
Qed.

Lemma area_in_first c : area_in First_Circle c = area c.
Proof. reflexivity. Qed.

(** X14.  While the global name [Circle] is still the first class, the
    area of a circle is never negative and never NaN: for every radius that
    is a number, int or float, of either sign, [area] either returns a float
    that is a number and not below zero, or raises OverflowError because the
    radius is an int too large for a float; every circle that [from_diameter]
    returns has such an area.  Once line 114 has bound [Circle] to the
    subclass of [Shape], [area] raises AttributeError on every circle. *)
Theorem area_never_negative :
  (forall c : circle,
      is_nan_num (radius c) = false ->
      match area_in First_Circle c with
      | Ok a => is_nan_num a = false /\ py_lt a (PyInt 0) = false
      | Raise e => e = OverflowError /\ exists z, radius c = PyInt z
      end) /\
  (forall d c,
      from_diameter d = Ok c ->
      exists a, area_in First_Circle c = Ok a /\
                is_nan_num a = false /\ py_lt a (PyInt 0) = false) /\
  (forall c : circle, area_in Shape_Circle c = Raise AttributeError).
Proof.
  split; [|split; [|reflexivity]].
  - intros [[z|r]] Hn; cbn [radius] in Hn; rewrite area_in_first.
    + change {| radius := PyInt z |} with (Circle_init (PyInt z)).
      rewrite area_int. destruct (float_of_int z) as [t|e] eqn:Et; cbn [bind].
      * apply area_value_ok, finite_not_nan, (float_of_int_finite z), Et.
      * split; [|exists z; reflexivity]. unfold float_of_int in Et.
        destruct (is_finite _) in Et; congruence.
    + change {| radius := PyFloat r |} with (Circle_init (PyFloat r)).
      rewrite area_float. now apply area_value_ok.
  - intros d c. unfold from_diameter.
    destruct (halve d) as [r|e] eqn:Er; cbn [bind]; [|discriminate].
    intros [= <-]. rewrite area_in_first, area_float.
    eexists; split; [reflexivity|].
    apply area_value_ok, finite_not_nan, (halve_finite d), Er.
Qed.

Lemma area_never_negative_witness :
  match area_in First_Circle unit_circle with
  | Ok a => is_nan_num a = false /\ py_lt a (PyInt 0) = false
  | Raise e => e = OverflowError /\ exists z, radius unit_circle = PyInt z
  end /\
  exists a, area_in First_Circle (Circle_init (PyFloat 5)) = Ok a /\
            is_nan_num a = false /\ py_lt a (PyInt 0) = false.
Proof.
  split.
  - apply (proj1 area_never_negative unit_circle). reflexivity.
  - apply (proj1 (proj2 area_never_negative) 10). reflexivity.
Defined.

End CircleFacts.

(** ** The first [Circle]: [from_diameter] *)

Section DiameterFacts.

Import Circles Runs FloatFacts FloatRange FloatArith.

Lemma binary_round_opp s m e :
  binary_round prec emax (negb s) m e = SFopp (binary_round prec emax s m e).
Proof.
  unfold binary_round. destruct (shl_align m e _) as [mz ez].
  apply binary_round_aux_opp.
Qed.

Lemma binary_normalize_opp z e :
  z <> 0 ->
  binary_normalize prec emax (- z) e false
  = SFopp (binary_normalize prec emax z e false).
Proof.
  destruct z as [|p|p]; [congruence| |]; intros _; cbn [binary_normalize Z.opp].
  - apply (binary_round_opp false).
  - now rewrite <- (binary_round_opp true).
Qed.

Lemma valid_opp x :
  SpecFloat.valid_binary prec emax (SFopp x) = SpecFloat.valid_binary prec emax x.
Proof. destruct x; reflexivity. Qed.

Lemma SF2Prim_opp x :
  SpecFloat.valid_binary prec emax x = true ->
  SF2Prim (SFopp x) = (- SF2Prim x)%float.
Proof.
  intros V. apply Prim2SF_inj.
  rewrite opp_spec, !Prim2SF_SF2Prim; [reflexivity|exact V|now rewrite valid_opp].
Qed.

Lemma SF_is_finite_opp x : SF_is_finite (SFopp x) = SF_is_finite x.
Proof. destruct x; reflexivity. Qed.

Lemma halve_opp d :
  d <> 0 ->
  halve (- d) = match halve d with Ok r => Ok (- r)%float | Raise e => Raise e end.
Proof.
  intros Hd. rewrite !halve_spec, (binary_normalize_opp d (-1) Hd).
  rewrite SF_is_finite_opp.
  destruct (SF_is_finite (binary_normalize prec emax d (-1) false)); [|reflexivity].
  rewrite SF2Prim_opp; [reflexivity|].
  apply binary_normalize_valid. reflexivity.
Qed.

Lemma area_opp r : (pi * (- r) * (- r))%float = (pi * r * r)%float.
Proof.
  apply Prim2SF_inj.
  rewrite !mul_spec, opp_spec, !SFmul_opp_r, SFmul_opp_l.
  apply SFopp_involutive.
Qed.

(** X15.  The area does not depend on the sign of the diameter:
    [from_diameter(-d)] followed by [area] gives the result, value or
    OverflowError, that [from_diameter(d)] followed by [area] gives. *)
Theorem area_of_negated_diameter (d : Z) :
  (c <- from_diameter (- d) ;; area c) = (c <- from_diameter d ;; area c).
Proof.
  destruct (Z.eq_dec d 0) as [->|Hd]; [reflexivity|].
  unfold from_diameter. rewrite (halve_opp d Hd).
  destruct (halve d) as [r|e]; cbn [bind]; [|reflexivity].
  now rewrite !area_float, area_opp.
Qed.

Lemma binary_round_half s m :
  Z.pos m < 2 ^ 53 ->
  exists mz ez,
    binary_round prec emax s m (-1) = S754_finite s mz ez /\
    ez < 0 /\ Z.pos mz = Z.pos m * 2 ^ (- 1 - ez).
Proof.
  intros Hm. unfold binary_round.
  pose proof (shl_align_spec prec emax m (-1)) as H.
  destruct (shl_align m (-1) _) as [mz ez]. destruct H as (H1 & H2 & H3 & H4).
  pose proof (Zdigits2_lt_pow2 m 53 ltac:(lia) Hm) as Hd.
  cbn [Zdigits2] in *. exists mz, ez.
  assert (Hf : fexp prec emax (Z.pos (digits2_pos mz) + ez) = ez).
  { rewrite H2. unfold fexp, emin, prec, emax in *. lia. }
  rewrite binary_round_aux_exact; [|exact Hf|unfold prec, emax in *; lia].
  split; [reflexivity|]. split; [lia|exact H4].
Qed.

(** Half of an even int below [2^53] is computed exactly. *)
Lemma halve_even k :
  Z.abs k < 2 ^ 52 ->
  exists r, halve (2 * k) = Ok r /\ float_cmp_int r k = Some Eq.
Proof.
  intros Hk. rewrite halve_spec. unfold float_cmp_int.
  destruct k as [|p|p];
    [|change (2 * Z.pos p) with (Z.pos (2 * p))
     |change (2 * Z.neg p) with (Z.neg (2 * p))];
    cbn [binary_normalize].
  - eexists; split; reflexivity.
  - destruct (binary_round_half false (2 * p)) as (mz & ez & E & He & Hv); [lia|].
    pose proof (binary_round_valid prec emax ltac:(reflexivity) false (2 * p) (-1)) as V.
    rewrite E in V |- *. cbn [SF_is_finite]. eexists; split; [reflexivity|].
    rewrite (Prim2SF_SF2Prim _ V). f_equal.
    destruct (Z.leb_spec 0 ez); [lia|]. apply Z.compare_eq_iff.
    rewrite Hv. replace (- ez) with (1 + (- 1 - ez)) by lia.
    rewrite Z.pow_add_r by lia. change (2 ^ 1) with 2.
    rewrite Pos2Z.inj_mul. nia.
  - destruct (binary_round_half true (2 * p)) as (mz & ez & E & He & Hv); [lia|].
    pose proof (binary_round_valid prec emax ltac:(reflexivity) true (2 * p) (-1)) as V.
    rewrite E in V |- *. cbn [SF_is_finite]. eexists; split; [reflexivity|].
    rewrite (Prim2SF_SF2Prim _ V). f_equal.
    destruct (Z.leb_spec 0 ez); [lia|]. apply Z.compare_eq_iff.
    change (Z.neg mz) with (- Z.pos mz). rewrite Hv.
    replace (- ez) with (1 + (- 1 - ez)) by lia.
    rewrite Z.pow_add_r by lia. change (2 ^ 1) with 2.
    rewrite Pos2Z.inj_mul. nia.
Qed.

(** X16.  [from_diameter] returns a circle with a finite float radius for
    every int diameter below [2^1024] in magnitude and raises OverflowError
    for every diameter of magnitude [2^1025] or more; for an even diameter
    below [2^53] in magnitude the radius equals half the diameter exactly. *)
Theorem from_diameter_outcome :
  (forall d, Z.abs d < 2 ^ 1024 ->
             exists r, from_diameter d = Ok (Circle_init (PyFloat r)) /\
                       is_finite r = true) /\
  (forall d, 2 ^ 1025 <= Z.abs d -> from_diameter d = Raise OverflowError) /\
  (forall k, Z.abs k < 2 ^ 52 ->
             exists r, from_diameter (2 * k) = Ok (Circle_init (PyFloat r)) /\
                       py_eq (PyFloat r) (PyInt k) = true).
Proof.
  split; [|split].
  - intros d Hd. unfold from_diameter. rewrite halve_spec.
    assert (F : SF_is_finite (binary_normalize prec emax d (-1) false) = true).
    { destruct d as [|p|p]; cbn [binary_normalize]; [reflexivity| |];
        apply binary_round_in_range; try lia;
        pose proof (Zdigits2_lt_pow2 p 1024 ltac:(lia) ltac:(lia));
        unfold emax; lia. }
    rewrite F. cbn [bind]. eexists; split; [reflexivity|].
    now rewrite is_finite_SF, SF2Prim_normalize.
  - intros d Hd. unfold from_diameter. rewrite halve_spec.
    destruct d as [|p|p]; cbn [binary_normalize]; [cbn in Hd; lia| |];
      rewrite binary_round_out_of_range; try reflexivity;
      pose proof (Zdigits2_ge_pow2 p 1025 ltac:(lia) ltac:(lia));
      unfold emax; lia.
  - intros k Hk. destruct (halve_even k Hk) as (r & Hr & Hc).
    exists r. unfold from_diameter. rewrite Hr. split; [reflexivity|].
    unfold py_eq. cbn [py_compare]. now rewrite Hc.
Qed.

Lemma from_diameter_outcome_witness :
  exists r, from_diameter (2 * 5) = Ok (Circle_init (PyFloat r)) /\
            py_eq (PyFloat r) (PyInt 5) = true.
Proof.
  apply (proj2 (proj2 from_diameter_outcome)). reflexivity.
Defined.

End DiameterFacts.

(** ** Shapes *)

Section ShapeFacts.

Import Shapes Runs.

Lemma upper_no_lower s : no_lower (PyStr.ascii_upper s) = true.
Proof.
  induction s as [|c s IH]; [reflexivity|]. cbn [PyStr.ascii_upper no_lower].
  now rewrite upper_char_not_lower, IH.
Qed.

Lemma upper_char_ascii c :
  PyStr.is_ascii_char c = true -> PyStr.is_ascii_char (PyStr.upper_char c) = true.
Proof. destruct c as [[] [] [] [] [] [] [] []]; try discriminate; reflexivity. Qed.

Lemma upper_ascii s :
  PyStr.is_ascii s = true -> PyStr.is_ascii (PyStr.ascii_upper s) = true.
Proof.
  induction s as [|c s IH]; [reflexivity|]. cbn [PyStr.is_ascii PyStr.ascii_upper].
  intros H. apply andb_true_iff in H. destruct H as [Hc Hs].
  now rewrite (upper_char_ascii c Hc), (IH Hs).
Qed.

(** X17.  A shape made by [from_description] from an ASCII description has
    an ASCII name of the length of the description with no lower-case letter
    in it, and describing a shape again from that name changes nothing:
    [from_description] applied to the name of its result gives, through the
    same class, the same object.  [upper] is the built-in [str.upper], known
    on ASCII strings. *)
Theorem from_description_idempotent
  (upper : string -> string) (cls : shape_class) (desc : string) :
  upper_on_ascii upper ->
  PyStr.is_ascii desc = true ->
  let o := from_description upper cls desc in
  from_description upper cls (name o) = o /\
  no_lower (name o) = true /\
  String.length (name o) = String.length desc /\
  PyStr.is_ascii (name o) = true.
Proof.
  intros Hu Ha. cbv zeta.
  assert (E : forall c, name (from_description upper c desc) = PyStr.ascii_upper desc).
  { intros []; cbn; apply Hu, Ha. }
  rewrite !E. rewrite upper_no_lower, upper_length, (upper_ascii desc Ha).
  repeat split.
  destruct cls; unfold from_description; cbn [call_class Shape_init Circle_init type_of];
    rewrite (Hu desc Ha), (Hu _ (upper_ascii desc Ha)), upper_idem; reflexivity.
Qed.

Lemma from_description_idempotent_witness :
  upper_on_ascii PyStr.ascii_upper /\
  PyStr.is_ascii "donut" = true /\
  from_description PyStr.ascii_upper Circle "DONUT"
  = from_description PyStr.ascii_upper Circle "donut".
Proof.
  assert (H : upper_on_ascii PyStr.ascii_upper) by (intros s _; reflexivity).
  split; [exact H|]. split; [reflexivity|].
  exact (proj1 (from_description_idempotent PyStr.ascii_upper Circle "donut"
                  H eq_refl)).
Defined.

End ShapeFacts.

(** ** Vehicles: the order of calls *)

Section CallOrder.

Import Vehicles Runs.

Lemma driven_add d a :
  driven d a = {| make := make a; model := model a; year := year a;
                  _mileage := _mileage a + Z.max 0 d |}.
Proof.
  unfold driven. destruct a as [mk md y m]. cbn [make model year _mileage].
  destruct (Z.gtb_spec d 0); f_equal; lia.
Qed.

Lemma after_all_plain cs : forall a,
  after_all cs (Vehicle a)
  = Vehicle {| make := make a; model := model a; year := year a;
               _mileage := _mileage a + driven_total cs |} /\
  forall f,
    after_all cs (Car a f)
    = Car {| make := make a; model := model a; year := year a;
             _mileage := _mileage a + driven_total cs |} f.
Proof.
  induction cs as [|c cs IH]; intros [mk md y m].
  - cbn. rewrite Z.add_0_r. split; reflexivity.
  - rewrite driven_total_cons. split; [|intros f]; rewrite after_all_cons;
      destruct c; cbn [after];
      rewrite ?drive_Vehicle, ?drive_Car, ?driven_add; cbn [fst];
      try (rewrite (proj1 (IH _))); try (rewrite (proj2 (IH _)));
      cbn [make model year _mileage]; do 2 f_equal; lia.
Qed.

Lemma driven_total_perm cs cs' :
  Permutation.Permutation cs cs' -> driven_total cs = driven_total cs'.
Proof.
  induction 1; rewrite ?driven_total_cons; try lia.
Qed.

(** X18.  On a Vehicle and on a Car the order of calls does not matter:
    the same calls made in any other order leave the same object.  On an
    ElectricScooter it does, because the battery is clamped on the way: from
    85, driving 1000 and then -1000 ends at 100.0, and the other way round at
    85.0, with the mileage at 1000 both times. *)
Theorem call_order :
  (forall cs cs',
      Permutation.Permutation cs cs' ->
      (forall a, after_all cs (Vehicle a) = after_all cs' (Vehicle a)) /\
      (forall a f, after_all cs (Car a f) = after_all cs' (Car a f))) /\
  after_all [Call_drive 1000; Call_drive (-1000)]
    (new_ElectricScooter "Xiaomi" "M365" 2022 85)
  = ElectricScooter {| make := "Xiaomi"; model := "M365"; year := 2022;
                       _mileage := 1000 |} (PyFloat 100) /\
  after_all [Call_drive (-1000); Call_drive 1000]
    (new_ElectricScooter "Xiaomi" "M365" 2022 85)
  = ElectricScooter {| make := "Xiaomi"; model := "M365"; year := 2022;
                       _mileage := 1000 |} (PyFloat 85).
Proof.
  split; [|split; vm_compute; reflexivity].
  intros cs cs' H. apply driven_total_perm in H. split.
  - intros a. now rewrite (proj1 (after_all_plain cs a)),
                          (proj1 (after_all_plain cs' a)), H.
  - intros a f. now rewrite (proj2 (after_all_plain cs a)),
                            (proj2 (after_all_plain cs' a)), H.
Qed.

Lemma call_order_witness :
  after_all [Call_drive 100; Call_get_info; Call_drive (-4)]
    (new_Car "Toyota" "Corolla" 2020 50)
  = after_all [Call_drive (-4); Call_drive 100; Call_get_info]
      (new_Car "Toyota" "Corolla" 2020 50).
Proof.
  refine (proj2 (proj1 call_order
                   [Call_drive 100; Call_get_info; Call_drive (-4)]
                   [Call_drive (-4); Call_drive 100; Call_get_info] _) _ _).
  apply Permutation.perm_trans
    with [Call_drive 100; Call_drive (-4); Call_get_info].
  - apply Permutation.perm_skip, Permutation.perm_swap.
  - apply Permutation.perm_swap.
Defined.

End CallOrder.
